(** * astral-assistant: the icon generator and the transcription relay

    A shallow embedding of [generate_icons.py] and [whisper_api_debug.py].
    Both scripts are sequential glue around a file system, a console, an
    imaging library and an external recogniser, so the embedding is a small
    state-and-exception monad over an explicit world, with the library
    calls the scripts make written out next to them. *)

From Stdlib Require Import ZArith NArith Ascii String.
From stdpp Require Import base strings list gmap pretty sorting.

Local Open Scope string_scope.
Local Open Scope N_scope.
Local Open Scope list_scope.

(** ** Python values shared by the two scripts *)

(** A Python [str] is a sequence of Unicode code points. Paths, file names
    and command-line words of the scripts are ASCII literals and stay Rocq
    strings; [lit] turns a literal into text. *)
Abbreviation text := (list N).
Abbreviation bytes := (list Byte.byte).

Definition lit (s : string) : text := N_of_ascii <$> list_ascii_of_string s.

(** The decimal rendering that an f-string gives a non-negative [int]. *)
Definition decimal (n : N) : text := lit (pretty n).

(** Code points 10, 39, 0x2713 and 0x2717 as they occur in the literals. *)
Definition NL : text := [10].
Definition QUOTE : text := [39].
Definition CHECK_MARK : text := [0x2713].
Definition BALLOT_X : text := [0x2717].

(** [repr] of a path made of plain characters: the path between quotes. *)
Definition quoted (p : string) : text := QUOTE ++ lit p ++ QUOTE.

(** Exceptions. [Exception] stands for every error below Python's
    [Exception] class and carries what [str(e)] gives; [HTTPException] is
    FastAPI's, with its status code and detail. *)
Inductive exn : Type :=
| Exception (msg : text)
| HTTPException (status_code : Z) (detail : text).

Definition str_exn (e : exn) : text :=
  match e with
  | Exception msg => msg
  | HTTPException c d => decimal (Z.to_N c) ++ lit ": " ++ d
  end.

(** [OSError] with errno 2, as [open], [os.remove] and [Image.open] raise it
    for a path that is not there (POSIX wording). *)
Definition FileNotFoundError (p : string) : exn :=
  Exception (lit "[Errno 2] No such file or directory: " ++ quoted p).

Inductive res (A : Type) : Type :=
| Ok (a : A)
| Raise (e : exn).
Arguments Ok {A} a.
Arguments Raise {A} e.

(** A computation reads and updates a world [W] and returns or raises. *)
Definition M (W A : Type) : Type := W → res A * W.

Definition ret {W A} (a : A) : M W A := λ w, (Ok a, w).
Definition raise {W A} (e : exn) : M W A := λ w, (Raise e, w).
Definition bind {W A B} (c : M W A) (k : A → M W B) : M W B :=
  λ w, match c w with
       | (Ok a, w') => k a w'
       | (Raise e, w') => (Raise e, w')
       end.

(** [try: c except Exception as e: h e]. Every exception of the model is
    below [Exception]. *)
Definition try_except {W A} (c : M W A) (h : exn → M W A) : M W A :=
  λ w, match c w with
       | (Ok a, w') => (Ok a, w')
       | (Raise e, w') => h e w'
       end.

Definition modify {W} (f : W → W) : M W unit := λ w, (Ok tt, f w).

Declare Scope py_scope.
Delimit Scope py_scope with py.
Notation "x <- c ;; k" := (bind c (λ x, k))
  (at level 100, c at next level, right associativity) : py_scope.
Notation "c ;; k" := (bind c (λ _, k))
  (at level 100, right associativity) : py_scope.

(** A [for] loop over a list whose body may raise. *)
Fixpoint for_each {W A} (l : list A) (body : A → M W unit) : M W unit :=
  match l with
  | [] => ret tt
  | x :: l' => bind (body x) (λ _, for_each l' body)
  end.

(** [os.path.join] of a directory and one component ([posixpath]). *)
Definition path_join (dir name : string) : string :=
  if String.prefix "/" name then name
  else if (String.eqb dir "" || String.eqb (String.substring (String.length dir - 1) 1 dir) "/")%bool
       then dir +:+ name
       else dir +:+ "/" +:+ name.

Arguments path_join : simpl never.

(** ** str.strip *)

(** [str.isspace] on one code point: CPython's [_PyUnicode_IsWhitespace]. *)
Definition isspace (c : N) : bool :=
  ((9 <=? c) && (c <=? 13)) || ((28 <=? c) && (c <=? 32))
  || (c =? 0x85) || (c =? 0xA0) || (c =? 0x1680)
  || ((0x2000 <=? c) && (c <=? 0x200A))
  || (c =? 0x2028) || (c =? 0x2029) || (c =? 0x202F) || (c =? 0x205F)
  || (c =? 0x3000).

Fixpoint lstrip (s : text) : text :=
  match s with
  | c :: s' => if isspace c then lstrip s' else s
  | [] => []
  end.

Definition rstrip (s : text) : text := reverse (lstrip (reverse s)).

Definition strip (s : text) : text := rstrip (lstrip s).

(** Text made of whitespace only. *)
Definition blank (s : text) : Prop := Forall (λ c, isspace c = true) s.

(** [t] is [s] without its leading and trailing whitespace: what was cut
    off at each end is blank, and [t] neither starts nor ends with a
    whitespace character. *)
Definition stripped_of (s t : text) : Prop :=
  (∃ pre post, s = pre ++ t ++ post ∧ blank pre ∧ blank post)
  ∧ (∀ c, head t = Some c → isspace c = false)
  ∧ (∀ c, last t = Some c → isspace c = false).


(** JSON values as the handlers build them; an object keeps the order of
    the dict literal. *)
#[warnings="-register-all"]
Inductive json : Type :=
| JStr (s : text)
| JList (l : list json)
| JObj (fields : list (string * json)).

Definition json_get (k : string) (j : json) : option json :=
  match j with
  | JObj fields => snd <$> List.find (λ kv, String.eqb (fst kv) k) fields
  | _ => None
  end.

(** ** The transcription relay ([whisper_api_debug.py]) *)

Module Relay.

(** What [subprocess.run(..., capture_output=True, text=True)] returns. *)
Record CompletedProcess : Type := {
  returncode : Z;
  stdout : text;
  stderr : text;
}.

(** How [open(path, "wb")] followed by [f.write(content)] can go: both
    succeed, [open] raises and the disk is untouched, or [write] raises
    after [open] has created the file and [n] bytes have reached it. *)
Inductive write_outcome : Type :=
| Written
| OpenFails (e : exn)
| WriteFails (e : exn) (n : nat).

(** What a process has done to the file it was given by the time it
    exits: left it, written over it, or removed it. *)
Inductive input_fate : Type :=
| Kept
| Rewritten (data : bytes)
| Removed.

(** The surroundings of one request: the platform, the disk's behaviour
    on a write, the recogniser, and the entry FastAPI's validation writes
    for a form whose file field is missing or is no file (its keys depend
    on the FastAPI version). The
    recogniser is given its command line and the files it can read; it
    either cannot be started, which raises, or runs to completion, and then
    has left, rewritten or removed its input file. Of what a process does
    to the disk the model follows that one file, the only one the handler
    comes back to. *)
Record Env : Type := {
  os_name : string;
  disk : string → bytes → write_outcome;
  subprocess_run : list string → gmap string bytes → res (CompletedProcess * input_fate);
  missing_file : json;
}.

(** What reaches the terminal: a printed line, or the traceback of an
    exception. *)
Inductive console_line : Type :=
| Out (t : text)
| Traceback (e : exn).

(** The state a request runs in: the working directory's files, the
    terminal, and the command lines handed to [subprocess.run] so far. *)
Record World : Type := {
  files : gmap string bytes;
  console : list console_line;
  commands : list (list string);
}.

Definition set_files (f : gmap string bytes → gmap string bytes) (w : World) : World :=
  {| files := f (files w); console := console w; commands := commands w |}.

Definition print (t : text) : M World unit :=
  modify (λ w, {| files := files w; console := console w ++ [Out t]; commands := commands w |}).

Definition print_exc (e : exn) : M World unit :=
  modify (λ w, {| files := files w; console := console w ++ [Traceback e]; commands := commands w |}).

(** [with open(path, "wb") as f: f.write(content)] *)
Definition write_file (env : Env) (path : string) (content : bytes) : M World unit :=
  match disk env path content with
  | Written => modify (set_files (insert path content))
  | OpenFails e => raise e
  | WriteFails e n => (modify (set_files (insert path (take n content))) ;; raise e)%py
  end.

(** The file a command line hands over: the word after [-f]. *)
Fixpoint input_file (argv : list string) : option string :=
  match argv with
  | flag :: rest => if String.eqb flag "-f" then head rest else input_file rest
  | [] => None
  end.

Definition settle (fate : input_fate) (path : string) (fs : gmap string bytes)
  : gmap string bytes :=
  match fate with
  | Kept => fs
  | Rewritten data => <[path := data]> fs
  | Removed => delete path fs
  end.

(** [subprocess.run(argv, capture_output=True, text=True)] *)
Definition run (env : Env) (argv : list string) : M World CompletedProcess :=
  λ w, match subprocess_run env argv (files w) with
       | Ok (result, fate) =>
           (Ok result,
            {| files := match input_file argv with
                        | Some path => settle fate path (files w)
                        | None => files w
                        end;
               console := console w; commands := commands w ++ [argv] |})
       | Raise e =>
           (Raise e,
            {| files := files w; console := console w; commands := commands w ++ [argv] |})
       end.

(** [os.remove(path)] *)
Definition os_remove (path : string) : M World unit :=
  λ w, match files w !! path with
       | Some _ => (Ok tt, set_files (delete path) w)
       | None => (Raise (FileNotFoundError path), w)
       end.

Definition WHISPER_EXECUTABLE (env : Env) : string :=
  if String.eqb (os_name env) "nt" then "./main.exe" else "./main".

Definition MODEL_PATH : string := "models/ggml-small.en.bin".

(** The command line of line 27. *)
Definition whisper_argv (env : Env) (audio_path : string) : list string :=
  [WHISPER_EXECUTABLE env; "-m"; MODEL_PATH; "-f"; audio_path; "-nt"].

(** [s[:500] if s else 'EMPTY'] *)
Definition head_or_empty (s : text) : text :=
  match s with
  | [] => lit "EMPTY"
  | _ => take 500 s
  end.

Definition JSONResponse (content : json) : json := content.

Definition transcribe_audio (env : Env) (file : bytes) : M World json :=
  try_except
    (let audio_path := "temp_audio.wav" in
     let content := file in
     write_file env audio_path content ;;
     print (lit "[DEBUG] Received " ++ decimal (N.of_nat (length content)) ++ lit " bytes") ;;
     result <- run env (whisper_argv env audio_path) ;;
     print (lit "[DEBUG] Return code: " ++ lit (pretty (returncode result))) ;;
     print (lit "[DEBUG] Stdout: " ++ head_or_empty (stdout result)) ;;
     print (lit "[DEBUG] Stderr: " ++ head_or_empty (stderr result)) ;;
     if bool_decide (returncode result ≠ 0%Z)
     then raise (Exception (lit "Whisper failed: " ++ stderr result))
     else
       let transcription := strip (stdout result) in
       print (lit "[DEBUG] Transcription: " ++ QUOTE ++ transcription ++ QUOTE) ;;
       os_remove audio_path ;;
       ret (JSONResponse (JObj [("text", JStr transcription)])))%py
    (λ e,
       print (lit "[ERROR] " ++ str_exn e) ;;
       print_exc e ;;
       raise (HTTPException 500 (str_exn e)))%py.

Definition health_check : M World json :=
  ret (JObj [("status", JStr (lit "ok")); ("model", JStr (lit "whisper.cpp base.en"))]).

Definition root : M World json :=
  ret (JObj [("name", JStr (lit "Whisper STT API for ASTRAL"));
             ("version", JStr (lit "1.0"));
             ("endpoints", JList [JStr (lit "/health"); JStr (lit "/transcribe")])]).

(** The requests for the three routes registered on [app]: a POST
    /transcribe with its [file] field, one without a usable one, which
    FastAPI turns away for the handler ([File(...)] at line 15 makes the
    field required), and the two GETs. Other paths and methods never reach the script:
    FastAPI answers them from its own routes and error handlers, and they
    are not part of the type. *)
Inductive Request : Type :=
| POST_transcribe (file : bytes)
| POST_transcribe_without_file
| GET_health
| GET_root.

Inductive Body : Type :=
| JsonBody (j : json)
| PlainText (t : text).

Record Response : Type := { status : Z; body : Body }.

(** FastAPI around a path operation: a returned value is sent with status
    200, an [HTTPException] with its own status and its detail under
    ["detail"], any other exception as a bare 500. *)
Definition respond (r : res json) : Response :=
  match r with
  | Ok j => {| status := 200; body := JsonBody j |}
  | Raise (HTTPException c d) => {| status := c; body := JsonBody (JObj [("detail", JStr d)]) |}
  | Raise (Exception _) => {| status := 500; body := PlainText (lit "Internal Server Error") |}
  end.

(** The answer to a request whose required field is missing: status 422
    and a list of validation errors as detail. *)
Definition unprocessable (env : Env) : Response :=
  {| status := 422; body := JsonBody (JObj [("detail", JList [missing_file env])]) |}.

Definition app (env : Env) (req : Request) (w : World) : Response * World :=
  match req with
  | POST_transcribe file => let '(r, w') := transcribe_audio env file w in (respond r, w')
  | POST_transcribe_without_file => (unprocessable env, w)
  | GET_health => let '(r, w') := health_check w in (respond r, w')
  | GET_root => let '(r, w') := root w in (respond r, w')
  end.

(** *** Sample surroundings *)

(** The bytes [RIFF]. *)
Definition sample_upload : bytes := [Byte.x52; Byte.x49; Byte.x46; Byte.x46].

Definition idle : World := {| files := ∅; console := []; commands := [] |}.

(** The validation entry as FastAPI on pydantic 2 words it, without its
    null input. *)
Definition field_required : json :=
  JObj [("type", JStr (lit "missing"));
        ("loc", JList [JStr (lit "body"); JStr (lit "file")]);
        ("msg", JStr (lit "Field required"))].

(** A recogniser that answers every file it is pointed at. *)
Definition working : Env :=
  {| os_name := "posix";
     disk := λ _ _, Written;
     subprocess_run := λ argv fs,
       Ok ({| returncode := 0; stdout := lit " hello world" ++ NL; stderr := [] |}, Kept);
     missing_file := field_required |}.

(** A recogniser that rejects its input. *)
Definition rejecting : Env :=
  {| os_name := "nt";
     disk := λ _ _, Written;
     subprocess_run := λ argv fs,
       Ok ({| returncode := 1; stdout := [];
              stderr := lit "error: failed to read WAV file" |}, Kept);
     missing_file := field_required |}.

(** A machine on which the recogniser was never built. *)
Definition absent : Env :=
  {| os_name := "posix";
     disk := λ _ _, Written;
     subprocess_run := λ argv fs, Raise (FileNotFoundError "./main");
     missing_file := field_required |}.

(** A working directory the server may not write to. *)
Definition read_only : Env :=
  {| os_name := "posix";
     disk := λ path _, OpenFails (Exception (lit "[Errno 13] Permission denied: " ++ quoted path));
     subprocess_run := subprocess_run working;
     missing_file := field_required |}.

(** A disk that fills up two bytes into the upload. *)
Definition full : Env :=
  {| os_name := "posix";
     disk := λ _ _, WriteFails (Exception (lit "[Errno 28] No space left on device")) 2;
     subprocess_run := subprocess_run working;
     missing_file := field_required |}.



(** A deployment with the model in place and an earlier command in the log. *)
Definition deployed : World :=
  {| files := {[ "models/ggml-small.en.bin" := [Byte.x67; Byte.x67; Byte.x6d; Byte.x6c] ]};
     console := [Out (lit "Server URL: http://localhost:9881")];
     commands := [] |}.

(** *** Requests in sequence *)

(** The server of line 74 is one process with one event loop, and past its
    first line [transcribe_audio] never yields: the write, the blocking
    [subprocess.run] and the removal of one request run without another
    handler in between. A run of the server is the requests handled one
    after another. *)
Fixpoint serve (env : Env) (reqs : list Request) (w : World) : list Response * World :=
  match reqs with
  | [] => ([], w)
  | req :: rest =>
      let '(r, w1) := app env req w in
      let '(rs, w2) := serve env rest w1 in
      (r :: rs, w2)
  end.

(** The six ways one transcription request can go. *)
Inductive transcribe_run (env : Env) (file : bytes) (w : World) : Prop :=
| run_success out fate :
    disk env "temp_audio.wav" file = Written →
    subprocess_run env (whisper_argv env "temp_audio.wav")
      (<["temp_audio.wav" := file]> (files w)) = Ok (out, fate) →
    returncode out = 0%Z → fate ≠ Removed → transcribe_run env file w
| run_input_gone out :
    disk env "temp_audio.wav" file = Written →
    subprocess_run env (whisper_argv env "temp_audio.wav")
      (<["temp_audio.wav" := file]> (files w)) = Ok (out, Removed) →
    returncode out = 0%Z → transcribe_run env file w
| run_nonzero out fate :
    disk env "temp_audio.wav" file = Written →
    subprocess_run env (whisper_argv env "temp_audio.wav")
      (<["temp_audio.wav" := file]> (files w)) = Ok (out, fate) →
    returncode out ≠ 0%Z → transcribe_run env file w
| run_not_started e :
    disk env "temp_audio.wav" file = Written →
    subprocess_run env (whisper_argv env "temp_audio.wav")
      (<["temp_audio.wav" := file]> (files w)) = Raise e → transcribe_run env file w
| run_open_fails e :
    disk env "temp_audio.wav" file = OpenFails e → transcribe_run env file w
| run_write_fails e n :
    disk env "temp_audio.wav" file = WriteFails e n → transcribe_run env file w.

Definition is_POST (req : Request) : bool :=
  match req with
  | POST_transcribe _ | POST_transcribe_without_file => true
  | _ => false
  end.

End Relay.

(** ** The icon generator ([generate_icons.py]) *)

Module Icons.

Abbreviation dims := (N * N)%type.

(** [Image.Resampling] *)
Inductive Resampling : Type :=
| NEAREST | BOX | BILINEAR | HAMMING | BICUBIC | LANCZOS.

(** The pixel kernels of the imaging library. Their arithmetic is floating
    point and stays abstract: a raster type, mode conversion, resampling
    from one size to another under a filter, and the aspect-preserving size
    that [thumbnail] settles on for an image size and a requested size. *)
Class Imaging : Type := {
  raster : Type;
  convert_px : string → string → raster → raster;
  resample_px : Resampling → string → dims → dims → raster → raster;
  thumbnail_dims : dims → dims → dims;
}.

(** The free kernels: a raster is the history of what was done to it. *)
Inductive history : Type :=
| Source
| Converted (from to : string) (r : history)
| Resampled (filter : Resampling) (mode : string) (from to : dims) (r : history).

Definition symbolic : Imaging :=
  {| raster := history; convert_px := Converted; resample_px := Resampled;
     thumbnail_dims := λ _ requested, requested |}.

Section WithImaging.
Context `{Imaging}.

Record Image : Type := { im_mode : string; im_size : dims; im_px : raster }.

(** [im.convert(mode)] *)
Definition convert (mode : string) (im : Image) : Image :=
  {| im_mode := mode; im_size := im_size im;
     im_px := convert_px (im_mode im) mode (im_px im) |}.

(** [im.resize(size, resample)] *)
Definition resize (size : dims) (resample : Resampling) (im : Image) : Image :=
  {| im_mode := im_mode im; im_size := size;
     im_px := resample_px resample (im_mode im) (im_size im) size (im_px im) |}.

(** [im.thumbnail(size, resample)], on a copy. *)
Definition thumbnail (size : dims) (resample : Resampling) (im : Image) : Image :=
  let final := thumbnail_dims (im_size im) size in
  if decide (im_size im = final) then im else resize final resample im.

(** A file of the working tree, by what a decoder finds in it: one raster
    in some format, an icon container with its entries in file order, or
    bytes in which [Image.open] identifies no image. Whether the pixels of
    an image then load is not a matter of this type, see [load]. *)
Inductive file : Type :=
| RasterFile (format : string) (im : Image)
| IconFile (entries : list Image)
| Blob (data : bytes).

Record World : Type := {
  files : gmap string file;
  console : list text;
}.

Definition print (t : text) : M World unit :=
  modify (λ w, {| files := files w; console := console w ++ [t] |}).

Definition area (im : Image) : N := fst (im_size im) * snd (im_size im).

(** The entry an icon container opens as: the first of largest area. *)
Fixpoint largest (entries : list Image) : option Image :=
  match entries with
  | [] => None
  | im :: rest =>
      match largest rest with
      | Some im' => if area im <? area im' then Some im' else Some im
      | None => Some im
      end
  end.

Definition UnidentifiedImageError (path : string) : exn :=
  Exception (lit "cannot identify image file " ++ quoted path).

(** [Image.open(path)]: the file is identified and its header read. The
    pixels are loaded when they are first used, see [load]. *)
Definition Image_open (path : string) : M World Image :=
  λ w, match files w !! path with
       | None => (Raise (FileNotFoundError path), w)
       | Some (RasterFile _ im) => (Ok im, w)
       | Some (IconFile entries) =>
           match largest entries with
           | Some im => (Ok im, w)
           | None => (Raise (UnidentifiedImageError path), w)
           end
       | Some (Blob _) => (Raise (UnidentifiedImageError path), w)
       end.

(** What the tree refuses: for a path, the [OSError] that opening it for
    writing raises, if any (its directory is missing or read-only, or a
    directory has that name). A refused save leaves the tree as it was. *)
Definition Refusals : Type := string → option exn.

Definition writable : Refusals := λ _, None.

(** What the files hide: for a path, the [OSError] that the first load of
    the pixels of the image there raises, if any (the file is cut short).
    [Image.open] reads the header only and does not notice. *)
Definition Damage : Type := string → option exn.

Definition intact : Damage := λ _, None.

(** The load of the pixels that the first use of an opened image sets
    off: [convert] at line 15, or else the first [resize] at line 26. *)
Definition load (damaged : Damage) (path : string) : M World unit :=
  match damaged path with
  | Some e => raise e
  | None => ret tt
  end.

(** [im.save(path, 'PNG')] *)
Definition save_PNG (locked : Refusals) (im : Image) (path : string) : M World unit :=
  match locked path with
  | Some e => raise e
  | None =>
      modify (λ w, {| files := <[path := RasterFile "PNG" im]> (files w);
                      console := console w |})
  end.

(** Tuples compare lexicographically. *)
Definition dims_le (a b : dims) : Prop :=
  fst a < fst b ∨ (fst a = fst b ∧ snd a ≤ snd b).

#[export] Instance dims_le_dec (a b : dims) : Decision (dims_le a b).
Proof. unfold dims_le. apply _. Defined.

(** [sorted(set(sizes))] *)
Definition sorted_set (sizes : list dims) : list dims :=
  merge_sort dims_le (remove_dups sizes).

(** The frames Pillow's ICO writer ([IcoImagePlugin._save]) stores for [im]
    and the requested [sizes] when no [append_images] are given. It walks
    [sorted(set(sizes))]; a size wider or taller than [im], or beyond 256,
    is skipped ([if size[0] > width or size[1] > height or size[0] > 256 or
    size[1] > 256: continue]); the size [im] has is stored as [im] itself;
    a smaller one as a Lanczos thumbnail of a copy of [im]. *)
Definition ico_frames (im : Image) (sizes : list dims) : list Image :=
  let '(width, height) := im_size im in
  omap (λ size : dims,
          if ((width <? fst size) || (height <? snd size)
              || (256 <? fst size) || (256 <? snd size))%bool
          then None
          else if decide (im_size im = size) then Some im
               else Some (thumbnail size LANCZOS im))
       (sorted_set sizes).

(** [im.save(path, format='ICO', sizes=sizes)] *)
Definition save_ICO (locked : Refusals) (im : Image) (path : string) (sizes : list dims)
  : M World unit :=
  match locked path with
  | Some e => raise e
  | None =>
      modify (λ w, {| files := <[path := IconFile (ico_frames im sizes)]> (files w);
                      console := console w |})
  end.

Definition sizes : list (N * N * string) :=
  [(32, 32, "32x32.png");
   (128, 128, "128x128.png");
   (256, 256, "128x128@2x.png")].

Definition ico_sizes : list dims :=
  [(16, 16); (32, 32); (48, 48); (64, 64); (128, 128); (256, 256)].

(** Lines 14-15: [if img.mode != 'RGBA': img = img.convert('RGBA')] *)
Definition ensure_RGBA (img : Image) : Image :=
  if bool_decide (im_mode img ≠ "RGBA") then convert "RGBA" img else img.

Definition IndexError : exn := Exception (lit "list index out of range").

(** [generate_icons] (lines 8-45) on a tree with the damage [damaged] and
    the refusals [locked]. *)
Definition generate_icons_on (damaged : Damage) (locked : Refusals)
    (source_path output_dir : string) : M World unit :=
  (img <- Image_open source_path ;;
   load damaged source_path ;;
   let img := ensure_RGBA img in
   for_each sizes (λ '(width, height, filename),
     let resized := resize (width, height) LANCZOS img in
     let output_path := path_join output_dir filename in
     save_PNG locked resized output_path ;;
     print (lit "Generated: " ++ lit filename)) ;;
   let ico_images := (λ size, resize size LANCZOS img) <$> ico_sizes in
   let ico_path := path_join output_dir "icon.ico" in
   match ico_images !! 0%nat with
   | Some first => save_ICO locked first ico_path ico_sizes
   | None => raise IndexError
   end ;;
   print (lit "Generated: icon.ico") ;;
   print (NL ++ lit "Note: icon.icns not generated (requires macOS or additional tools)") ;;
   print (lit "This is fine for Windows development."))%py.

(** [generate_icons] on a tree whose images load and that refuses no
    write. *)
Definition generate_icons (source_path output_dir : string) : M World unit :=
  generate_icons_on intact writable source_path output_dir.

(** [os.path.exists(path)] *)
Definition os_path_exists (path : string) (w : World) : bool :=
  bool_decide (is_Some (files w !! path)).

(** The script run as a program (lines 47-64), to its exit status, on a
    tree with the damage [damaged] and the refusals [locked]. [exit(1)]
    ends it with status 1, falling off the end with status 0. *)
Definition main_on (damaged : Damage) (locked : Refusals) (w : World) : Z * World :=
  let source := "src-tauri/icons/icon.png" in
  let output := "src-tauri/icons" in
  if negb (os_path_exists source w)
  then (1%Z, snd (print (lit "Error: Source image not found: " ++ lit source) w))
  else
    let w1 := snd ((print (lit "Generating icons from: " ++ lit source) ;;
                    print (lit "Output directory: " ++ lit output) ;;
                    print [])%py w) in
    match try_except
            (generate_icons_on damaged locked source output ;;
             print (NL ++ CHECK_MARK ++ lit " Icon generation complete!") ;;
             ret None)%py
            (λ e, print (NL ++ BALLOT_X ++ lit " Error: " ++ str_exn e) ;;
                  ret (Some 1%Z))%py
            w1 with
    | (Ok None, w2) => (0%Z, w2)
    | (Ok (Some code), w2) => (code, w2)
    | (Raise _, w2) => (1%Z, w2)
    end.

(** The program on a tree whose images load and that refuses no write. *)
Definition main (w : World) : Z * World := main_on intact writable w.

(** A decoded container holds an entry at every wanted resolution. *)
Definition holds_all (entries : list Image) (wanted : list dims) : Prop :=
  ∀ size, size ∈ wanted → ∃ e, e ∈ entries ∧ im_size e = size.

(** The output paths of the two passes. *)
Definition png_paths (output_dir : string) : list string :=
  (λ '(_, _, filename), path_join output_dir filename) <$> sizes.

Definition ico_path (output_dir : string) : string := path_join output_dir "icon.ico".

(** The files the two passes save for the decoded source [src], in the
    order of the saves. *)
Definition outputs (output_dir : string) (src : Image) : list (string * file) :=
  ((λ '(width, height, filename),
      (path_join output_dir filename,
       RasterFile "PNG" (resize (width, height) LANCZOS (ensure_RGBA src)))) <$> sizes)
  ++ [(ico_path output_dir,
       IconFile (ico_frames (resize (16, 16) LANCZOS (ensure_RGBA src)) ico_sizes))].

(** Saving a list of files in order, up to the first refusal. *)
Fixpoint save_until (locked : Refusals) (outs : list (string * file))
    (fs : gmap string file) : option exn * gmap string file :=
  match outs with
  | [] => (None, fs)
  | (path, f) :: rest =>
      match locked path with
      | Some e => (Some e, fs)
      | None => save_until locked rest (<[path := f]> fs)
      end
  end.

Definition save_all (outs : list (string * file)) (fs : gmap string file)
  : gmap string file :=
  foldl (λ fs '(path, f), <[path := f]> fs) fs outs.

End WithImaging.

(** Whether a file name starts with the pixel size [d], as [32x32.png]
    does for 32 by 32. *)
Definition names_its_dims (d : dims) (filename : string) : bool :=
  String.prefix (pretty (fst d) +:+ "x" +:+ pretty (snd d)) filename.

(** *** Sample surroundings, over the free kernels *)

#[local] Existing Instance symbolic.

Definition sample_source : @Image symbolic :=
  {| im_mode := "RGB"; im_size := (512, 512); im_px := Source |}.

Definition project : @World symbolic :=
  {| files := {[ "src-tauri/icons/icon.png" := RasterFile "PNG" sample_source ]};
     console := [] |}.

Definition bare : @World symbolic := {| files := ∅; console := [] |}.

(** A tree whose icon.png is not an image, beside a file of its own. *)
Definition garbled : @World symbolic :=
  {| files := {[ "src-tauri/icons/icon.png" := Blob [Byte.x00; Byte.x01];
                 "src-tauri/tauri.conf.json" := Blob [Byte.x7b; Byte.x7d] ]};
     console := [] |}.

(** A source already in RGBA. *)
Definition rgba_source : @Image symbolic :=
  {| im_mode := "RGBA"; im_size := (1024, 1024); im_px := Source |}.

Definition rgba_project : @World symbolic :=
  {| files := {[ "src-tauri/icons/icon.png" := RasterFile "PNG" rgba_source;
                 "src-tauri/tauri.conf.json" := Blob [Byte.x7b; Byte.x7d] ]};
     console := [] |}.

Definition PermissionError (path : string) : exn :=
  Exception (lit "[Errno 13] Permission denied: " ++ quoted path).


(** A tree on which nothing can be written. *)
Definition sealed : Refusals := λ path, Some (PermissionError path).

(** A tree on which only 128x128.png cannot be written. *)
Definition jammed : Refusals :=
  λ path, if String.eqb path "src-tauri/icons/128x128.png"
          then Some (PermissionError path) else None.

End Icons.

(** * Properties *)

(** ** The library calls on small inputs *)

Example strip_sample :
  strip ([9; 32] ++ lit "so it goes" ++ [32; 13; 10]) = lit "so it goes".
Proof. reflexivity. Qed.

Example strip_keeps_inner_space : strip (lit " a  b ") = lit "a  b".
Proof. reflexivity. Qed.

Example strip_no_break_space : strip ([0xA0] ++ lit "x" ++ [0x3000]) = lit "x".
Proof. reflexivity. Qed.

Example strip_blank : strip (lit "   ") = [].
Proof. reflexivity. Qed.

Example path_join_samples :
  path_join "src-tauri/icons" "icon.ico" = "src-tauri/icons/icon.ico"
  ∧ path_join "icons/" "icon.ico" = "icons/icon.ico"
  ∧ path_join "" "icon.ico" = "icon.ico"
  ∧ path_join "icons" "/tmp/icon.ico" = "/tmp/icon.ico".
Proof. by vm_compute. Qed.

Example health_sample :
  Relay.app Relay.rejecting Relay.GET_health Relay.idle
  = ({| Relay.status := 200;
        Relay.body := Relay.JsonBody (JObj [("status", JStr (lit "ok"));
                                            ("model", JStr (lit "whisper.cpp base.en"))]) |},
     Relay.idle).
Proof. reflexivity. Qed.

(** ** str.strip *)

Section Strip.

Lemma lstrip_split (s : text) : ∃ pre, s = pre ++ lstrip s ∧ blank pre.
Proof.
  induction s as [|c s [pre [Hs Hpre]]]; simpl.
  - exists []. split; [done | constructor].
  - destruct (isspace c) eqn:Hc.
    + exists (c :: pre). split; [simpl; by f_equal | by constructor].
    + exists []. split; [done | constructor].
Qed.

Lemma lstrip_head (s : text) c rest : lstrip s = c :: rest → isspace c = false.
Proof.
  induction s as [|d s IH]; simpl; [done |].
  destruct (isspace d) eqn:Hd; [done |]. by intros [= <- _].
Qed.

Lemma rstrip_split (s : text) : ∃ post, s = rstrip s ++ post ∧ blank post.
Proof.
  unfold rstrip. destruct (lstrip_split (reverse s)) as [pre [Hs Hpre]].
  exists (reverse pre). split.
  - rewrite <- reverse_app, <- Hs. by rewrite reverse_involutive.
  - by apply Forall_reverse.
Qed.

Lemma rstrip_last (s : text) c : last (rstrip s) = Some c → isspace c = false.
Proof.
  unfold rstrip. rewrite last_reverse.
  destruct (lstrip (reverse s)) as [|d rest] eqn:E; [done |].
  intros [= <-]. by eapply lstrip_head.
Qed.

Lemma rstrip_head (s : text) c : head s = Some c → isspace c = false →
  head (rstrip s) = Some c.
Proof.
  intros Hh Hc. destruct (rstrip_split s) as [post [Hs Hpost]].
  destruct (rstrip s) as [|d r] eqn:E.
  - simpl in Hs. subst post. destruct s as [|c' s']; [done |].
    injection Hh as ->. apply Forall_cons in Hpost as [Hpost _]. congruence.
  - rewrite Hs in Hh. simpl in *. done.
Qed.

Lemma strip_split (s : text) :
  ∃ pre post, s = pre ++ strip s ++ post ∧ blank pre ∧ blank post.
Proof.
  destruct (lstrip_split s) as [pre [Hs Hpre]].
  destruct (rstrip_split (lstrip s)) as [post [Ht Hpost]].
  exists pre, post. unfold strip. by rewrite <- Ht.
Qed.

Lemma strip_head (s : text) c : head (strip s) = Some c → isspace c = false.
Proof.
  unfold strip. destruct (lstrip s) as [|d r] eqn:E.
  - by vm_compute.
  - pose proof (lstrip_head _ _ _ E) as Hd.
    rewrite (rstrip_head (d :: r) d eq_refl Hd). by intros [= <-].
Qed.

Lemma strip_last (s : text) c : last (strip s) = Some c → isspace c = false.
Proof. apply rstrip_last. Qed.

Lemma strip_stripped_of (s : text) : stripped_of s (strip s).
Proof.
  split; [apply strip_split |]. split; [apply strip_head | apply strip_last].
Qed.


End Strip.

(** ** os.path.join *)

Section Paths.

Lemma append_cancel (s a b : string) : s +:+ a = s +:+ b → a = b.
Proof. induction s as [|c s IH]; simpl; [done |]. intros [= E]. auto. Qed.

Lemma path_join_relative dir name :
  String.prefix "/" name = false →
  ∃ sep, path_join dir name = dir +:+ sep +:+ name ∧ (sep = "" ∨ sep = "/").
Proof.
  intros Hn. unfold path_join. rewrite Hn.
  destruct (_ || _)%bool; [exists "" | exists "/"]; auto.
Qed.

Lemma path_join_inj dir a b :
  String.prefix "/" a = false → String.prefix "/" b = false →
  path_join dir a = path_join dir b → a = b.
Proof.
  intros Ha Hb. unfold path_join. rewrite Ha, Hb.
  destruct (_ || _)%bool; intros E.
  - by apply append_cancel in E.
  - apply append_cancel in E. by apply (append_cancel "/") in E.
Qed.

Lemma path_join_ne dir a b :
  String.prefix "/" a = false → String.prefix "/" b = false →
  a ≠ b → path_join dir a ≠ path_join dir b.
Proof. intros Ha Hb Hne E. by apply Hne, (path_join_inj dir). Qed.

End Paths.

Ltac path_ne := apply path_join_ne; [reflexivity | reflexivity | discriminate].

(** ** The transcription relay *)

Module RelayProps.
Import Relay.

Ltac run_handler :=
  unfold app, transcribe_audio, try_except, bind, write_file, run, os_remove,
         print, print_exc, modify, raise, ret, set_files, JSONResponse;
  cbn [files console commands fst snd respond].

Lemma input_file_whisper_argv env path : input_file (whisper_argv env path) = Some path.
Proof.
  unfold whisper_argv, WHISPER_EXECUTABLE. by destruct (String.eqb (os_name env) "nt").
Qed.

Lemma settle_present fate path (fs : gmap string bytes) :
  fate ≠ Removed → is_Some (fs !! path) → is_Some (settle fate path fs !! path).
Proof.
  destruct fate as [|data|]; [done | | done]. intros _ _. simpl.
  rewrite lookup_insert_eq. by eexists.
Qed.

Lemma delete_settle fate path (fs : gmap string bytes) :
  delete path (settle fate path fs) = delete path fs.
Proof.
  destruct fate as [|data|]; simpl;
    [done | apply delete_insert_eq | apply delete_delete_eq].
Qed.

Lemma transcribe_audio_success env file w out fate :
  disk env "temp_audio.wav" file = Written →
  subprocess_run env (whisper_argv env "temp_audio.wav")
    (<["temp_audio.wav" := file]> (files w)) = Ok (out, fate) →
  returncode out = 0%Z →
  fate ≠ Removed →
  transcribe_audio env file w =
    (Ok (JObj [("text", JStr (strip (stdout out)))]),
     {| files := delete "temp_audio.wav" (files w);
        console := console w ++
          [Out (lit "[DEBUG] Received " ++ decimal (N.of_nat (length file)) ++ lit " bytes");
           Out (lit "[DEBUG] Return code: " ++ lit "0");
           Out (lit "[DEBUG] Stdout: " ++ head_or_empty (stdout out));
           Out (lit "[DEBUG] Stderr: " ++ head_or_empty (stderr out));
           Out (lit "[DEBUG] Transcription: " ++ QUOTE ++ strip (stdout out) ++ QUOTE)];
        commands := commands w ++ [whisper_argv env "temp_audio.wav"] |}).
Proof.
  intros Hd Hr Hc Hf. run_handler. rewrite Hd. cbn [files console commands].
  rewrite Hr, Hc, input_file_whisper_argv. cbn [files console commands bool_decide].
  rewrite bool_decide_eq_false_2 by (intros ?; done).
  cbn [files console commands].
  destruct (settle_present fate "temp_audio.wav" (<["temp_audio.wav" := file]> (files w)) Hf)
    as [kept ->]; [rewrite lookup_insert_eq; by eexists |].
  rewrite delete_settle, delete_insert_eq. rewrite <- !app_assoc. reflexivity.
Qed.

(** The recogniser exits with code 0 and has removed its input: the
    removal at line 44 raises. *)
Lemma transcribe_audio_input_gone env file w out :
  disk env "temp_audio.wav" file = Written →
  subprocess_run env (whisper_argv env "temp_audio.wav")
    (<["temp_audio.wav" := file]> (files w)) = Ok (out, Removed) →
  returncode out = 0%Z →
  transcribe_audio env file w =
    (Raise (HTTPException 500 (str_exn (FileNotFoundError "temp_audio.wav"))),
     {| files := delete "temp_audio.wav" (files w);
        console := console w ++
          [Out (lit "[DEBUG] Received " ++ decimal (N.of_nat (length file)) ++ lit " bytes");
           Out (lit "[DEBUG] Return code: " ++ lit "0");
           Out (lit "[DEBUG] Stdout: " ++ head_or_empty (stdout out));
           Out (lit "[DEBUG] Stderr: " ++ head_or_empty (stderr out));
           Out (lit "[DEBUG] Transcription: " ++ QUOTE ++ strip (stdout out) ++ QUOTE);
           Out (lit "[ERROR] " ++ str_exn (FileNotFoundError "temp_audio.wav"));
           Traceback (FileNotFoundError "temp_audio.wav")];
        commands := commands w ++ [whisper_argv env "temp_audio.wav"] |}).
Proof.
  intros Hd Hr Hc. run_handler. rewrite Hd. cbn [files console commands].
  rewrite Hr, Hc, input_file_whisper_argv. cbn [files console commands bool_decide settle].
  rewrite bool_decide_eq_false_2 by (intros ?; done).
  cbn [files console commands]. rewrite lookup_delete_eq.
  cbn [files console commands]. rewrite delete_insert_eq. rewrite <- !app_assoc. reflexivity.
Qed.

Lemma transcribe_audio_nonzero env file w out fate :
  disk env "temp_audio.wav" file = Written →
  subprocess_run env (whisper_argv env "temp_audio.wav")
    (<["temp_audio.wav" := file]> (files w)) = Ok (out, fate) →
  returncode out ≠ 0%Z →
  transcribe_audio env file w =
    (Raise (HTTPException 500 (lit "Whisper failed: " ++ stderr out)),
     {| files := settle fate "temp_audio.wav" (<["temp_audio.wav" := file]> (files w));
        console := console w ++
          [Out (lit "[DEBUG] Received " ++ decimal (N.of_nat (length file)) ++ lit " bytes");
           Out (lit "[DEBUG] Return code: " ++ lit (pretty (returncode out)));
           Out (lit "[DEBUG] Stdout: " ++ head_or_empty (stdout out));
           Out (lit "[DEBUG] Stderr: " ++ head_or_empty (stderr out));
           Out (lit "[ERROR] " ++ lit "Whisper failed: " ++ stderr out);
           Traceback (Exception (lit "Whisper failed: " ++ stderr out))];
        commands := commands w ++ [whisper_argv env "temp_audio.wav"] |}).
Proof.
  intros Hd Hr Hc. run_handler. rewrite Hd. cbn [files console commands].
  rewrite Hr, input_file_whisper_argv. cbn [files console commands].
  rewrite bool_decide_eq_true_2 by done.
  cbn [files console commands str_exn]. rewrite <- !app_assoc. reflexivity.
Qed.

Lemma transcribe_audio_not_started env file w e :
  disk env "temp_audio.wav" file = Written →
  subprocess_run env (whisper_argv env "temp_audio.wav")
    (<["temp_audio.wav" := file]> (files w)) = Raise e →
  transcribe_audio env file w =
    (Raise (HTTPException 500 (str_exn e)),
     {| files := <["temp_audio.wav" := file]> (files w);
        console := console w ++
          [Out (lit "[DEBUG] Received " ++ decimal (N.of_nat (length file)) ++ lit " bytes");
           Out (lit "[ERROR] " ++ str_exn e);
           Traceback e];
        commands := commands w ++ [whisper_argv env "temp_audio.wav"] |}).
Proof.
  intros Hd Hr. run_handler. rewrite Hd. cbn [files console commands].
  rewrite Hr. cbn [files console commands]. rewrite <- !app_assoc. reflexivity.
Qed.

Lemma transcribe_audio_open_fails env file w e :
  disk env "temp_audio.wav" file = OpenFails e →
  transcribe_audio env file w =
    (Raise (HTTPException 500 (str_exn e)),
     {| files := files w;
        console := console w ++ [Out (lit "[ERROR] " ++ str_exn e); Traceback e];
        commands := commands w |}).
Proof.
  intros Hd. run_handler. rewrite Hd. cbn [files console commands].
  rewrite <- !app_assoc. reflexivity.
Qed.

Lemma transcribe_audio_write_fails env file w e n :
  disk env "temp_audio.wav" file = WriteFails e n →
  transcribe_audio env file w =
    (Raise (HTTPException 500 (str_exn e)),
     {| files := <["temp_audio.wav" := take n file]> (files w);
        console := console w ++ [Out (lit "[ERROR] " ++ str_exn e); Traceback e];
        commands := commands w |}).
Proof.
  intros Hd. run_handler. rewrite Hd. run_handler.
  rewrite <- !app_assoc. reflexivity.
Qed.

Lemma transcribe_run_cases env file w : transcribe_run env file w.
Proof.
  destruct (disk env "temp_audio.wav" file) as [|e|e n] eqn:Hd.
  - destruct (subprocess_run env (whisper_argv env "temp_audio.wav")
                (<["temp_audio.wav" := file]> (files w))) as [[out fate]|e] eqn:Hr.
    + destruct (decide (returncode out = 0%Z)); [| by eapply run_nonzero].
      destruct fate as [|data|];
        [by eapply run_success | by eapply run_success | by eapply run_input_gone].
    + by eapply run_not_started.
  - by eapply run_open_fails.
  - by eapply run_write_fails.
Qed.

Lemma app_transcribe env file w :
  app env (POST_transcribe file) w =
    (respond (fst (transcribe_audio env file w)), snd (transcribe_audio env file w)).
Proof. unfold app. by destruct (transcribe_audio env file w). Qed.

(** One transcription request, path by path. *)
Ltac by_run env file w :=
  rewrite ?app_transcribe;
  destruct (transcribe_run_cases env file w)
    as [out fate Hd Hr Hc Hf|out Hd Hr Hc|out fate Hd Hr Hc|e Hd Hr|e Hd|e n Hd];
  [ rewrite !(transcribe_audio_success _ _ _ _ _ Hd Hr Hc Hf)
  | rewrite !(transcribe_audio_input_gone _ _ _ _ Hd Hr Hc)
  | rewrite !(transcribe_audio_nonzero _ _ _ _ _ Hd Hr Hc)
  | rewrite !(transcribe_audio_not_started _ _ _ _ Hd Hr)
  | rewrite !(transcribe_audio_open_fails _ _ _ _ Hd)
  | rewrite !(transcribe_audio_write_fails _ _ _ _ _ Hd) ];
  cbn [fst snd respond status body files console commands].

(** The command lines one transcription request adds: the recogniser's,
    once the upload is on disk, and none otherwise. *)
Lemma transcribe_audio_commands env file w :
  commands (snd (transcribe_audio env file w)) =
    commands w ++
    match disk env "temp_audio.wav" file with
    | Written => [whisper_argv env "temp_audio.wav"]
    | _ => []
    end.
Proof.
  destruct (transcribe_run_cases env file w)
    as [out fate Hd Hr Hc Hf|out Hd Hr Hc|out fate Hd Hr Hc|e Hd Hr|e Hd|e n Hd]; rewrite Hd.
  - by rewrite (transcribe_audio_success _ _ _ _ _ Hd Hr Hc Hf).
  - by rewrite (transcribe_audio_input_gone _ _ _ _ Hd Hr Hc).
  - by rewrite (transcribe_audio_nonzero _ _ _ _ _ Hd Hr Hc).
  - by rewrite (transcribe_audio_not_started _ _ _ _ Hd Hr).
  - rewrite (transcribe_audio_open_fails _ _ _ _ Hd). simpl. by rewrite app_nil_r.
  - rewrite (transcribe_audio_write_fails _ _ _ _ _ Hd). simpl. by rewrite app_nil_r.
Qed.

(** Once the recogniser has run, failed and left its input alone, the
    upload is still on disk when the request ends. *)
Lemma temp_file_kept_on_nonzero env file w out :
  disk env "temp_audio.wav" file = Written →
  subprocess_run env (whisper_argv env "temp_audio.wav")
    (<["temp_audio.wav" := file]> (files w)) = Ok (out, Kept) →
  returncode out ≠ 0%Z →
  files (snd (app env (POST_transcribe file) w)) !! "temp_audio.wav" = Some file.
Proof.
  intros Hd Hr Hc. rewrite app_transcribe.
  rewrite (transcribe_audio_nonzero _ _ _ _ _ Hd Hr Hc). apply lookup_insert_eq.
Qed.






(** C6 (the temporary audio file is deleted on every exit path): on the
    request below the recogniser exits with code 1; the handler answers 500
    and the file written for the request, with the uploaded bytes, is still
    on disk when the request ends. *)
Theorem temp_file_left_after_failed_run :
  status (fst (app rejecting (POST_transcribe sample_upload) idle)) = 500%Z
  ∧ files (snd (app rejecting (POST_transcribe sample_upload) idle)) !! "temp_audio.wav"
    = Some sample_upload.
Proof.
  split; [reflexivity |].
  apply (temp_file_kept_on_nonzero rejecting sample_upload idle
           {| returncode := 1; stdout := []; stderr := lit "error: failed to read WAV file" |});
    [reflexivity | reflexivity | discriminate].
Qed.

(** C7: every GET /health request is answered with status 200 and the body
    {"status": "ok", "model": "whisper.cpp base.en"}, whatever the
    recogniser and the disk are like; nothing is run and nothing changes. *)
Theorem health_always_ok env w :
  ∃ j, app env GET_health w = ({| status := 200; body := JsonBody j |}, w)
       ∧ j = JObj [("status", JStr (lit "ok")); ("model", JStr (lit "whisper.cpp base.en"))]
       ∧ json_get "status" j = Some (JStr (lit "ok"))
       ∧ json_get "model" j = Some (JStr (lit "whisper.cpp base.en")).
Proof.
  unfold app, health_check, ret. cbn [respond].
  eexists. split; [reflexivity |]. by repeat split.
Qed.

(** C8: the only command a POST /transcribe request runs is the recogniser,
    ./main.exe when os.name is "nt" and ./main otherwise, with the arguments
    -m models/ggml-small.en.bin -f temp_audio.wav -nt; the audio path is the
    same for every request. It is run once the upload is on disk. *)
Theorem transcribe_command_line env file w :
  commands (snd (app env (POST_transcribe file) w)) =
    commands w ++
    match disk env "temp_audio.wav" file with
    | Written =>
        [[ (if String.eqb (os_name env) "nt" then "./main.exe" else "./main");
           "-m"; "models/ggml-small.en.bin"; "-f"; "temp_audio.wav"; "-nt" ]]
    | _ => []
    end.
Proof. rewrite app_transcribe. apply transcribe_audio_commands. Qed.

(** C10: GET /health reports the model "whisper.cpp base.en". A POST
    /transcribe request whose upload is written runs one command, and the
    model it passes to the recogniser after -m is models/ggml-small.en.bin,
    a different string: the health answer does not name the model in use. *)
Theorem health_model_is_not_the_model_in_use env file w :
  disk env "temp_audio.wav" file = Written →
  ∃ reported argv,
    (∃ j, fst (app env GET_health w) = {| status := 200; body := JsonBody j |}
          ∧ json_get "model" j = Some (JStr reported))
    ∧ reported = lit "whisper.cpp base.en"
    ∧ commands (snd (app env (POST_transcribe file) w)) = commands w ++ [argv]
    ∧ argv !! 1%nat = Some "-m"
    ∧ argv !! 2%nat = Some MODEL_PATH
    ∧ MODEL_PATH = "models/ggml-small.en.bin"
    ∧ reported ≠ lit MODEL_PATH.
Proof.
  intros Hd. eexists _, _. split; [by eexists |]. split; [reflexivity |].
  rewrite app_transcribe. cbn [snd]. rewrite transcribe_audio_commands, Hd.
  split; [reflexivity |]. by repeat split.
Qed.

Lemma health_model_is_not_the_model_in_use_witness :
  disk working "temp_audio.wav" sample_upload = Written
  ∧ ∃ reported argv,
      (∃ j, fst (app working GET_health idle) = {| status := 200; body := JsonBody j |}
            ∧ json_get "model" j = Some (JStr reported))
      ∧ reported = lit "whisper.cpp base.en"
      ∧ commands (snd (app working (POST_transcribe sample_upload) idle))
        = commands idle ++ [argv]
      ∧ argv !! 1%nat = Some "-m"
      ∧ argv !! 2%nat = Some MODEL_PATH
      ∧ MODEL_PATH = "models/ggml-small.en.bin"
      ∧ reported ≠ lit MODEL_PATH.
Proof.
  split; [reflexivity |].
  exact (health_model_is_not_the_model_in_use working sample_upload idle eq_refl).
Defined.

End RelayProps.

(** ** The icon generator *)

Module IconsProps.
Import Icons.

Section WithImaging.
Context `{Imaging}.

Lemma resize_size size filter (im : Image) : im_size (resize size filter im) = size.
Proof. reflexivity. Qed.

Lemma resize_mode size filter (im : Image) : im_mode (resize size filter im) = im_mode im.
Proof. reflexivity. Qed.

Lemma ensure_RGBA_mode (im : Image) : im_mode (ensure_RGBA im) = "RGBA".
Proof.
  unfold ensure_RGBA. case_bool_decide as E; [reflexivity |].
  by destruct (decide (im_mode im = "RGBA")).
Qed.

Lemma ensure_RGBA_size (im : Image) : im_size (ensure_RGBA im) = im_size im.
Proof. unfold ensure_RGBA. by case_bool_decide. Qed.

Lemma ico_frames_16 (im : Image) :
  im_size im = (16, 16) → ico_frames im ico_sizes = [im].
Proof.
  intros E. unfold ico_frames. rewrite E.
  change (sorted_set ico_sizes) with ico_sizes. 
  unfold ico_sizes. cbn -[decide]. rewrite decide_True by reflexivity. reflexivity.
Qed.

Lemma generate_icons_result source out (w : World) src :
  Image_open source w = (Ok src, w) →
  generate_icons source out w =
    (Ok tt,
     {| files :=
          <[path_join out "icon.ico" := IconFile [resize (16, 16) LANCZOS (ensure_RGBA src)]]>
          (<[path_join out "128x128@2x.png" := RasterFile "PNG" (resize (256, 256) LANCZOS (ensure_RGBA src))]>
          (<[path_join out "128x128.png" := RasterFile "PNG" (resize (128, 128) LANCZOS (ensure_RGBA src))]>
          (<[path_join out "32x32.png" := RasterFile "PNG" (resize (32, 32) LANCZOS (ensure_RGBA src))]>
             (files w))));
        console := console w ++
          [lit "Generated: 32x32.png"; lit "Generated: 128x128.png";
           lit "Generated: 128x128@2x.png"; lit "Generated: icon.ico";
           NL ++ lit "Note: icon.icns not generated (requires macOS or additional tools)";
           lit "This is fine for Windows development."] |}).
Proof.
  intros Ho. unfold generate_icons, generate_icons_on, bind. rewrite Ho.
  cbn [for_each sizes bind fmap list_fmap ico_sizes lookup list_lookup].
  unfold bind, load, intact, save_PNG, save_ICO, writable, print, modify, ret.
  cbn [files console].
  rewrite ico_frames_16 by reflexivity.
  rewrite <- !app_assoc. reflexivity.
Qed.

Lemma ico_frames_fit (im : Image) (requested : list dims) e :
  e ∈ ico_frames im requested →
  e = im ∨ ∃ size, size ∈ requested
                   ∧ fst size ≤ fst (im_size im) ∧ snd size ≤ snd (im_size im)
                   ∧ e = thumbnail size LANCZOS im.
Proof.
  unfold ico_frames. destruct (im_size im) as [width height] eqn:E.
  rewrite list_elem_of_omap. intros (size & Hin & Hsize).
  unfold sorted_set in Hin. rewrite merge_sort_Permutation, elem_of_remove_dups in Hin.
  destruct (_ || _)%bool eqn:Hfit; [done |].
  apply orb_false_elim in Hfit as [Hfit _]. apply orb_false_elim in Hfit as [Hfit _].
  apply orb_false_elim in Hfit as [Hw Hh].
  apply N.ltb_ge in Hw, Hh.
  case_decide; [left; congruence |]. right. exists size. simpl. naive_solver.
Qed.

Lemma single_16_lacks_32 (e : Image) :
  im_size e = (16, 16) → ¬ holds_all [e] ico_sizes.
Proof.
  intros E Hall. destruct (Hall (32, 32)) as (e' & He' & Hs).
  - unfold ico_sizes. set_solver.
  - apply list_elem_of_singleton in He'. subst e'. congruence.
Qed.


Lemma generate_icons_ico source out (w : World) src :
  Image_open source w = (Ok src, w) →
  files (snd (generate_icons source out w)) !! ico_path out
    = Some (IconFile [resize (16, 16) LANCZOS (ensure_RGBA src)]).
Proof.
  intros Ho. rewrite (generate_icons_result _ _ _ _ Ho). apply lookup_insert_eq.
Qed.

Lemma os_path_exists_false path (w : World) :
  files w !! path = None → os_path_exists path w = false.
Proof.
  intros E. unfold os_path_exists. apply bool_decide_eq_false_2.
  rewrite E. by intros [? ?].
Qed.

Lemma Image_open_same_files path (w w1 : World) src :
  files w1 = files w →
  Image_open path w = (Ok src, w) → Image_open path w1 = (Ok src, w1).
Proof.
  unfold Image_open. intros ->.
  destruct (files w !! path) as [[? ?|entries|?]|]; [| destruct (largest entries) | |];
    intros [= <-] || intros [=]; done.
Qed.


(** The program run where the source is there but is no image: the
    exception is reported, the status is 1 and no file is written. *)
Lemma main_undecodable (w : World) data :
  files w !! "src-tauri/icons/icon.png" = Some (Blob data) →
  fst (main w) = 1%Z ∧ files (snd (main w)) = files w.
Proof.
  intros E. unfold main, main_on.
  assert (os_path_exists "src-tauri/icons/icon.png" w = true) as ->.
  { unfold os_path_exists. apply bool_decide_eq_true_2. rewrite E. by eexists. }
  cbn [negb]. set (w1 := snd (_ w)).
  unfold try_except, bind, generate_icons_on, bind, Image_open.
  change (files w1) with (files w). rewrite E. split; reflexivity.
Qed.

(** *** Saves that can be refused *)

Lemma save_until_writable (locked : Refusals) (outs : list (string * file))
    (fs : gmap string file) :
  (∀ p, p ∈ outs.*1 → locked p = None) →
  save_until locked outs fs = (None, save_all outs fs).
Proof.
  revert fs. induction outs as [|[p f] outs IH]; intros fs Hw; [reflexivity |].
  cbn [save_until]. rewrite (Hw p) by apply list_elem_of_here.
  rewrite IH; [reflexivity |]. intros q Hq. apply Hw. by apply list_elem_of_further.
Qed.

Lemma save_until_refused (locked : Refusals) (saved rest : list (string * file)) path f e
    (fs : gmap string file) :
  (∀ q, q ∈ saved.*1 → locked q = None) →
  locked path = Some e →
  save_until locked (saved ++ (path, f) :: rest) fs = (Some e, save_all saved fs).
Proof.
  revert fs. induction saved as [|[q g] saved IH]; intros fs Hw He.
  - cbn [app save_until]. by rewrite He.
  - cbn [app save_until]. rewrite (Hw q) by apply list_elem_of_here.
    rewrite IH; [reflexivity | | exact He].
    intros q' Hq'. apply Hw. by apply list_elem_of_further.
Qed.


(** What [generate_icons_on] returns and leaves on a source that decodes:
    its saves in order, up to the first one refused. *)
Lemma generate_icons_on_saves damaged locked source out (w : World) src :
  Image_open source w = (Ok src, w) →
  damaged source = None →
  fst (generate_icons_on damaged locked source out w)
    = match fst (save_until locked (outputs out src) (files w)) with
      | None => Ok tt
      | Some e => Raise e
      end
  ∧ files (snd (generate_icons_on damaged locked source out w))
    = snd (save_until locked (outputs out src) (files w)).
Proof.
  intros Ho Hl. unfold generate_icons_on, bind. rewrite Ho.
  unfold outputs, ico_path, load. rewrite Hl.
  cbn [for_each sizes bind fmap list_fmap ico_sizes lookup list_lookup app save_until].
  unfold bind, save_PNG, save_ICO, print, modify, raise, ret.
  destruct (locked (path_join out "32x32.png")); [done |]. cbn [files console fst snd].
  destruct (locked (path_join out "128x128.png")); [done |]. cbn [files console fst snd].
  destruct (locked (path_join out "128x128@2x.png")); [done |]. cbn [files console fst snd].
  destruct (locked (path_join out "icon.ico")); done.
Qed.



(** On a tree whose source loads and that refuses none of the four saves
    the generator does what [generate_icons] does; what is proved of
    [generate_icons] below holds on every such tree. *)
Lemma generate_icons_on_writable damaged locked source out (w : World) :
  damaged source = None →
  (∀ p, p ∈ png_paths out ++ [ico_path out] → locked p = None) →
  generate_icons_on damaged locked source out w = generate_icons source out w.
Proof.
  intros Hl Hw. unfold generate_icons, generate_icons_on, bind.
  destruct (Image_open source w) as [[img|e] w1]; [| reflexivity].
  unfold load, intact. rewrite Hl.
  cbn [for_each sizes bind fmap list_fmap ico_sizes lookup list_lookup].
  unfold bind, save_PNG, save_ICO, writable.
  rewrite !Hw; [reflexivity | ..]; unfold png_paths, ico_path, sizes; cbn [fmap list_fmap app];
    repeat first [apply list_elem_of_here | apply list_elem_of_further].
Qed.

(** C4, as the code has it: for a source that opens and loads, on a tree
    that refuses none of the three PNG saves, generate_icons leaves, for each of
    the three entries of [sizes], a PNG file under its fixed name holding
    the RGBA-normalised source resized to the entry's width and height with
    the Lanczos filter; the sizes are 32x32, 128x128 and 256x256, the three
    paths are distinct, and no other raster file is created or changed. It
    returns normally when the save of icon.ico is not refused either. *)
Theorem three_png_outputs damaged locked source out (w : World) src :
  Image_open source w = (Ok src, w) →
  damaged source = None →
  (∀ p, p ∈ png_paths out → locked p = None) →
  ∃ r w', generate_icons_on damaged locked source out w = (r, w')
    ∧ (locked (ico_path out) = None → r = Ok tt)
    ∧ im_mode (ensure_RGBA src) = "RGBA"
    ∧ (λ '(width, height, _), (width, height)) <$> sizes
      = [(32, 32); (128, 128); (256, 256)]
    ∧ NoDup (png_paths out)
    ∧ (∀ width height filename, (width, height, filename) ∈ sizes →
         files w' !! path_join out filename
           = Some (RasterFile "PNG" (resize (width, height) LANCZOS (ensure_RGBA src)))
         ∧ im_size (resize (width, height) LANCZOS (ensure_RGBA src)) = (width, height))
    ∧ (∀ p format im, files w' !! p = Some (RasterFile format im) →
         p ∈ png_paths out ∨ files w !! p = Some (RasterFile format im)).
Proof.
  intros Ho Hl Hw.
  destruct (generate_icons_on_saves damaged locked source out w src Ho Hl) as [Er Ef].
  exists (fst (generate_icons_on damaged locked source out w)),
         (snd (generate_icons_on damaged locked source out w)).
  split; [apply surjective_pairing |].
  assert (H32 : locked (path_join out "32x32.png") = None)
    by (apply Hw; repeat first [apply list_elem_of_here | apply list_elem_of_further]).
  assert (H128 : locked (path_join out "128x128.png") = None)
    by (apply Hw; repeat first [apply list_elem_of_here | apply list_elem_of_further]).
  assert (H256 : locked (path_join out "128x128@2x.png") = None)
    by (apply Hw; repeat first [apply list_elem_of_here | apply list_elem_of_further]).
  unfold outputs, ico_path in Er, Ef.
  cbn [sizes fmap list_fmap app save_until] in Er, Ef.
  rewrite H32, H128, H256 in Er, Ef.
  split; [by unfold ico_path; intros E; rewrite E in Er |].
  split; [apply ensure_RGBA_mode |]. split; [reflexivity |].
  split; [| rewrite Ef; clear Er Ef; split].
  - unfold png_paths, sizes. cbn [fmap list_fmap].
    repeat (apply NoDup_cons; split;
      [set_unfold; intros Hin;
       repeat (destruct Hin as [Hin | Hin]; [revert Hin; path_ne |]); done |]).
    apply NoDup_nil_2.
  - intros width height filename Hin. split; [| reflexivity].
    unfold sizes in Hin. set_unfold in Hin.
    destruct Hin as [Hin | [Hin | [Hin | []]]]; simplify_eq;
      destruct (locked (path_join out "icon.ico")); cbn [snd];
      rewrite ?lookup_insert_ne by path_ne; apply lookup_insert_eq.
  - intros p format im.
    destruct (locked (path_join out "icon.ico")); cbn [snd];
      rewrite !lookup_insert_Some;
      unfold png_paths, sizes; cbn [fmap list_fmap]; set_unfold.
    + intros [[<- _] | [_ [[<- _] | [_ [[<- _] | [_ Hp]]]]]]; auto.
    + intros [[_ [=]] | [_ [[<- _] | [_ [[<- _] | [_ [[<- _] | [_ Hp]]]]]]]]; auto.
Qed.

(** C4, as stated, fails: on the tree below the source decodes, but no file
    can be written; the first save, at line 28, raises, generate_icons
    raises with it, leaving the tree as it was, and none of the three PNG
    files exists. *)
Lemma three_png_outputs_need_a_writable_tree :
  Image_open "src-tauri/icons/icon.png" project = (Ok sample_source, project)
  ∧ intact "src-tauri/icons/icon.png" = None
  ∧ generate_icons_on intact sealed "src-tauri/icons/icon.png" "src-tauri/icons" project
    = (Raise (PermissionError "src-tauri/icons/32x32.png"), project)
  ∧ files project !! "src-tauri/icons/32x32.png" = None
  ∧ files project !! "src-tauri/icons/128x128.png" = None
  ∧ files project !! "src-tauri/icons/128x128@2x.png" = None.
Proof. by repeat split. Qed.

(** C5: when src-tauri/icons/icon.png does not exist the program exits with
    status 1 after reporting the missing source, and the files are as they
    were. *)
Theorem missing_source_exits_1 (w : World) :
  files w !! "src-tauri/icons/icon.png" = None →
  fst (main w) = 1%Z
  ∧ files (snd (main w)) = files w
  ∧ console (snd (main w))
    = console w ++ [lit "Error: Source image not found: src-tauri/icons/icon.png"].
Proof.
  intros E. unfold main, main_on. by rewrite (os_path_exists_false _ _ E).
Qed.

(** C9: the file written under the name 128x128@2x.png holds the 256 by 256
    raster; of the three fixed names it is the one that does not start with
    the pixel size of its image. *)
Theorem retina_name_is_not_its_size source out (w : World) src :
  Image_open source w = (Ok src, w) →
  (∃ im, files (snd (generate_icons source out w)) !! path_join out "128x128@2x.png"
           = Some (RasterFile "PNG" im)
         ∧ im_size im = (256, 256))
  ∧ List.filter (λ '(width, height, filename), negb (names_its_dims (width, height) filename))
      sizes
    = [(256, 256, "128x128@2x.png")].
Proof.
  intros Ho. split; [| reflexivity].
  rewrite (generate_icons_result _ _ _ _ Ho). cbn [snd files]. eexists. split.
  - rewrite lookup_insert_ne by path_ne. apply lookup_insert_eq.
  - reflexivity.
Qed.

End WithImaging.

Example sorted_set_sample :
  sorted_set [(32, 32); (16, 16); (32, 32); (16, 8)] = [(16, 8); (16, 16); (32, 32)].
Proof. reflexivity. Qed.

Example ico_frames_of_large_source :
  im_size <$> ico_frames sample_source [(16, 16); (512, 512); (300, 300); (64, 64)]
  = [(16, 16); (64, 64)].
Proof. reflexivity. Qed.

Example ico_frames_of_small_source :
  im_size <$> ico_frames
                (resize (16, 16) LANCZOS sample_source) ico_sizes
  = [(16, 16)].
Proof. reflexivity. Qed.

Lemma three_png_outputs_witness :
  Image_open "src-tauri/icons/icon.png" project = (Ok sample_source, project)
  ∧ intact "src-tauri/icons/icon.png" = None
  ∧ (∀ p, p ∈ png_paths "src-tauri/icons" → writable p = None)
  ∧ ∃ r w', generate_icons_on intact writable "src-tauri/icons/icon.png" "src-tauri/icons"
              project
            = (r, w')
    ∧ (writable (ico_path "src-tauri/icons") = None → r = Ok tt)
    ∧ im_mode (ensure_RGBA sample_source) = "RGBA"
    ∧ (λ '(width, height, _), (width, height)) <$> sizes
      = [(32, 32); (128, 128); (256, 256)]
    ∧ NoDup (png_paths "src-tauri/icons")
    ∧ (∀ width height filename, (width, height, filename) ∈ sizes →
         files w' !! path_join "src-tauri/icons" filename
           = Some (RasterFile "PNG"
                     (resize (width, height) LANCZOS (ensure_RGBA sample_source)))
         ∧ im_size (resize (width, height) LANCZOS (ensure_RGBA sample_source))
           = (width, height))
    ∧ (∀ p format im, files w' !! p = Some (RasterFile format im) →
         p ∈ png_paths "src-tauri/icons" ∨ files project !! p = Some (RasterFile format im)).
Proof.
  assert (Hw : ∀ p, p ∈ png_paths "src-tauri/icons" → writable p = None)
    by (intros p _; reflexivity).
  split; [reflexivity |]. split; [reflexivity |]. split; [exact Hw |].
  exact (three_png_outputs intact writable "src-tauri/icons/icon.png" "src-tauri/icons"
           project sample_source eq_refl eq_refl Hw).
Defined.

Lemma missing_source_exits_1_witness :
  files bare !! "src-tauri/icons/icon.png" = None
  ∧ fst (main bare) = 1%Z
  ∧ files (snd (main bare)) = files bare
  ∧ console (snd (main bare))
    = console bare ++ [lit "Error: Source image not found: src-tauri/icons/icon.png"].
Proof.
  split; [reflexivity |]. exact (missing_source_exits_1 bare eq_refl).
Defined.

Lemma retina_name_is_not_its_size_witness :
  Image_open "src-tauri/icons/icon.png" project = (Ok sample_source, project)
  ∧ (∃ im, files (snd (generate_icons "src-tauri/icons/icon.png" "src-tauri/icons" project))
             !! path_join "src-tauri/icons" "128x128@2x.png"
           = Some (RasterFile "PNG" im)
         ∧ im_size im = (256, 256))
  ∧ List.filter (λ '(width, height, filename), negb (names_its_dims (width, height) filename))
      sizes
    = [(256, 256, "128x128@2x.png")].
Proof.
  split; [reflexivity |].
  exact (retina_name_is_not_its_size "src-tauri/icons/icon.png" "src-tauri/icons" project
           sample_source eq_refl).
Defined.

(** C3 (icon.ico holds entries at all six resolutions, the 16 by 16 one
    first): on the project below, whose source is a 512 by 512 image,
    icon.ico holds one entry, 16 by 16, after generate_icons; the
    resolutions 32 to 256 are not in it. *)
Theorem ico_holds_only_16 :
  ∃ e, files (snd (generate_icons "src-tauri/icons/icon.png" "src-tauri/icons" project))
         !! "src-tauri/icons/icon.ico" = Some (IconFile [e])
       ∧ im_size e = (16, 16)
       ∧ ¬ holds_all [e] ico_sizes.
Proof.
  eexists. split.
  - exact (generate_icons_ico "src-tauri/icons/icon.png" "src-tauri/icons" project
             sample_source eq_refl).
  - split; [reflexivity |]. by apply single_16_lacks_32.
Qed.

End IconsProps.

(** ** More on str.strip *)

Section StripMore.

Lemma lstrip_blank_app (pre s : text) : blank pre → lstrip (pre ++ s) = lstrip s.
Proof.
  induction 1 as [|c pre Hc _ IH]; [done |]. simpl. by rewrite Hc.
Qed.

Lemma lstrip_blank (s : text) : blank s → lstrip s = [].
Proof. intros Hs. rewrite <- (app_nil_r s). by rewrite lstrip_blank_app. Qed.

Lemma lstrip_id (s : text) : (∀ c, head s = Some c → isspace c = false) → lstrip s = s.
Proof. destruct s as [|c s]; [done |]. intros Hc. simpl. by rewrite Hc. Qed.

Lemma rstrip_id (s : text) : (∀ c, last s = Some c → isspace c = false) → rstrip s = s.
Proof.
  intros Hc. unfold rstrip. rewrite lstrip_id; [apply reverse_involutive |].
  intros c. rewrite head_reverse. apply Hc.
Qed.

Lemma rstrip_app_blank (s post : text) : blank post → rstrip (s ++ post) = rstrip s.
Proof.
  intros Hp. unfold rstrip. rewrite reverse_app, lstrip_blank_app; [done |].
  by apply Forall_reverse.
Qed.

Lemma stripped_of_strip (s t : text) : stripped_of s t → t = strip s.
Proof.
  intros [(pre & post & -> & Hpre & Hpost) [Hhead Hlast]]. unfold strip.
  rewrite lstrip_blank_app by done.
  destruct t as [|c t'].
  - simpl. rewrite (lstrip_blank post Hpost). reflexivity.
  - rewrite lstrip_id by (intros d [= <-]; by apply Hhead).
    rewrite rstrip_app_blank by done. symmetry. by apply rstrip_id.
Qed.

Lemma strip_idempotent (s : text) : strip (strip s) = strip s.
Proof.
  symmetry. apply stripped_of_strip. split; [| split].
  - exists [], []. rewrite app_nil_r. by repeat split; try constructor.
  - apply strip_head.
  - apply strip_last.
Qed.


(** X8: a text has one stripped form. Whatever satisfies the description
    "the text without its leading and trailing whitespace" is what
    str.strip returns, so two such texts are equal. *)
Theorem stripped_of_unique (s t1 t2 : text) :
  stripped_of s t1 → stripped_of s t2 → t1 = strip s ∧ t1 = t2.
Proof.
  intros H1 H2. apply stripped_of_strip in H1, H2. by subst.
Qed.

Lemma stripped_of_unique_witness :
  stripped_of (lit " a  b ") (lit "a  b")
  ∧ stripped_of (lit " a  b ") (strip (lit " a  b "))
  ∧ lit "a  b" = strip (lit " a  b ") ∧ lit "a  b" = strip (lit " a  b ").
Proof.
  assert (H1 : stripped_of (lit " a  b ") (lit "a  b")).
  { split; [| split].
    - exists [32], [32]. split; [reflexivity |]. split; by repeat constructor.
    - by intros c [= <-].
    - by intros c [= <-]. }
  split; [exact H1 |]. split; [apply strip_stripped_of |].
  exact (stripped_of_unique (lit " a  b ") (lit "a  b") (strip (lit " a  b "))
           H1 (strip_stripped_of _)).
Defined.

End StripMore.

(** ** The relay on every path, and over runs of the server *)

Module RelayEdges.
Import Relay RelayProps.

Lemma transcribe_status env file w :
  status (fst (app env (POST_transcribe file) w)) = 200%Z
  ∨ status (fst (app env (POST_transcribe file) w)) = 500%Z.
Proof. by_run env file w; auto. Qed.

(** X1: every POST /transcribe request is answered with JSON. One that
    carries the file is answered 200 with a "text" field or 500 with a
    string under "detail", whatever the disk and the recogniser do: no
    exception other than the HTTPException of line 52 leaves the handler.
    One without the file is answered 422 with a list under "detail", and
    the handler is not entered. *)
Theorem transcribe_answers_json env req w :
  is_POST req = true →
  (∃ file t, req = POST_transcribe file
             ∧ fst (app env req w)
               = {| status := 200; body := JsonBody (JObj [("text", JStr t)]) |})
  ∨ (∃ file d, req = POST_transcribe file
               ∧ fst (app env req w)
                 = {| status := 500; body := JsonBody (JObj [("detail", JStr d)]) |})
  ∨ (req = POST_transcribe_without_file
     ∧ app env req w
       = ({| status := 422; body := JsonBody (JObj [("detail", JList [missing_file env])]) |},
          w)).
Proof.
  destruct req as [file| | |]; [| by right; right | done | done]. intros _.
  by_run env file w; eauto 6.
Qed.

Lemma transcribe_answers_json_witness :
  is_POST POST_transcribe_without_file = true
  ∧ ((∃ file t, POST_transcribe_without_file = POST_transcribe file
                ∧ fst (app working POST_transcribe_without_file deployed)
                  = {| status := 200; body := JsonBody (JObj [("text", JStr t)]) |})
     ∨ (∃ file d, POST_transcribe_without_file = POST_transcribe file
                  ∧ fst (app working POST_transcribe_without_file deployed)
                    = {| status := 500; body := JsonBody (JObj [("detail", JStr d)]) |})
     ∨ (POST_transcribe_without_file = POST_transcribe_without_file
        ∧ app working POST_transcribe_without_file deployed
          = ({| status := 422;
                body := JsonBody (JObj [("detail", JList [missing_file working])]) |},
             deployed))).
Proof.
  split; [reflexivity |].
  exact (transcribe_answers_json working POST_transcribe_without_file deployed eq_refl).
Defined.


(** X3: a request only adds lines to the console, and a traceback is among
    them exactly when the answer is 500. *)
Theorem traceback_iff_500 env file w :
  ∃ new, console (snd (app env (POST_transcribe file) w)) = console w ++ new
       ∧ ((∃ e, Traceback e ∈ new) ↔ status (fst (app env (POST_transcribe file) w)) = 500%Z).
Proof.
  by_run env file w; eexists; (split; [reflexivity |]); split; try done;
    try (intros _; eexists;
         repeat first [apply list_elem_of_here | apply list_elem_of_further]).
  intros [e He].
  repeat (apply elem_of_cons in He as [He | He]; [discriminate He |]).
  by apply elem_of_nil in He.
Qed.




(** X5: when temp_audio.wav cannot be opened for writing, the answer is 500
    with the text of that error as detail; no file has changed and the
    recogniser is not run. *)
Theorem open_failure_runs_nothing env file w e :
  disk env "temp_audio.wav" file = OpenFails e →
  ∃ w', app env (POST_transcribe file) w =
          ({| status := 500; body := JsonBody (JObj [("detail", JStr (str_exn e))]) |}, w')
        ∧ files w' = files w
        ∧ commands w' = commands w.
Proof.
  intros Hd. eexists. rewrite app_transcribe.
  rewrite (transcribe_audio_open_fails _ _ _ _ Hd). by cbn [fst snd respond files commands].
Qed.

Lemma open_failure_runs_nothing_witness :
  disk read_only "temp_audio.wav" sample_upload
    = OpenFails (Exception (lit "[Errno 13] Permission denied: " ++ quoted "temp_audio.wav"))
  ∧ ∃ w', app read_only (POST_transcribe sample_upload) deployed =
            ({| status := 500;
                body := JsonBody (JObj [("detail",
                          JStr (lit "[Errno 13] Permission denied: " ++ quoted "temp_audio.wav"))]) |},
             w')
          ∧ files w' = files deployed
          ∧ commands w' = commands deployed.
Proof.
  split; [reflexivity |].
  exact (open_failure_runs_nothing read_only sample_upload deployed _ eq_refl).
Defined.

(** X6: when writing the upload fails part-way, the answer is 500 with the
    text of that error, the recogniser is not run, and the bytes that did
    reach temp_audio.wav stay there. *)
Theorem write_failure_leaves_partial_file env file w e n :
  disk env "temp_audio.wav" file = WriteFails e n →
  ∃ w', app env (POST_transcribe file) w =
          ({| status := 500; body := JsonBody (JObj [("detail", JStr (str_exn e))]) |}, w')
        ∧ files w' !! "temp_audio.wav" = Some (take n file)
        ∧ commands w' = commands w.
Proof.
  intros Hd. eexists. rewrite app_transcribe.
  rewrite (transcribe_audio_write_fails _ _ _ _ _ Hd). cbn [fst snd respond files commands].
  split; [reflexivity |]. split; [apply lookup_insert_eq | reflexivity].
Qed.

Lemma write_failure_leaves_partial_file_witness :
  disk full "temp_audio.wav" sample_upload
    = WriteFails (Exception (lit "[Errno 28] No space left on device")) 2
  ∧ ∃ w', app full (POST_transcribe sample_upload) idle =
            ({| status := 500;
                body := JsonBody (JObj [("detail",
                          JStr (lit "[Errno 28] No space left on device"))]) |}, w')
          ∧ files w' !! "temp_audio.wav" = Some [Byte.x52; Byte.x49]
          ∧ commands w' = commands idle.
Proof.
  split; [reflexivity |].
  exact (write_failure_leaves_partial_file full sample_upload idle _ 2 eq_refl).
Defined.



Lemma app_other_files env req w :
  delete "temp_audio.wav" (files (snd (app env req w))) = delete "temp_audio.wav" (files w).
Proof.
  destruct req as [file| | |]; [| reflexivity ..].
  by_run env file w; try reflexivity;
    by rewrite ?delete_settle, ?delete_delete_eq, ?delete_insert_eq.
Qed.

(** X13: what is under temp_audio.wav before a request, such as the upload
    a failed request left behind, has no effect on the answer: two worlds
    that agree on every other file get the same answer to the same
    request. *)
Theorem stale_upload_does_not_leak env req w1 w2 :
  delete "temp_audio.wav" (files w1) = delete "temp_audio.wav" (files w2) →
  fst (app env req w1) = fst (app env req w2).
Proof.
  intros E. destruct req as [file| | |]; [| reflexivity ..].
  assert (Ei : <["temp_audio.wav" := file]> (files w1)
               = <["temp_audio.wav" := file]> (files w2)).
  { rewrite <- (insert_delete_eq (files w1)), <- (insert_delete_eq (files w2)). by rewrite E. }
  rewrite !app_transcribe.
  destruct (transcribe_run_cases env file w1)
    as [out fate Hd Hr Hc Hf|out Hd Hr Hc|out fate Hd Hr Hc|e Hd Hr|e Hd|e n Hd].
  - rewrite (transcribe_audio_success _ _ _ _ _ Hd Hr Hc Hf). rewrite Ei in Hr.
    by rewrite (transcribe_audio_success _ _ _ _ _ Hd Hr Hc Hf).
  - rewrite (transcribe_audio_input_gone _ _ _ _ Hd Hr Hc). rewrite Ei in Hr.
    by rewrite (transcribe_audio_input_gone _ _ _ _ Hd Hr Hc).
  - rewrite (transcribe_audio_nonzero _ _ _ _ _ Hd Hr Hc). rewrite Ei in Hr.
    by rewrite (transcribe_audio_nonzero _ _ _ _ _ Hd Hr Hc).
  - rewrite (transcribe_audio_not_started _ _ _ _ Hd Hr). rewrite Ei in Hr.
    by rewrite (transcribe_audio_not_started _ _ _ _ Hd Hr).
  - by rewrite !(transcribe_audio_open_fails _ _ _ _ Hd).
  - by rewrite !(transcribe_audio_write_fails _ _ _ _ _ Hd).
Qed.

Lemma stale_upload_does_not_leak_witness :
  delete "temp_audio.wav" (files (snd (app rejecting (POST_transcribe [Byte.x00]) deployed)))
    = delete "temp_audio.wav" (files deployed)
  ∧ fst (app working (POST_transcribe sample_upload)
           (snd (app rejecting (POST_transcribe [Byte.x00]) deployed)))
    = fst (app working (POST_transcribe sample_upload) deployed).
Proof.
  assert (E : delete "temp_audio.wav"
                (files (snd (app rejecting (POST_transcribe [Byte.x00]) deployed)))
              = delete "temp_audio.wav" (files deployed))
    by apply app_other_files.
  split; [exact E |].
  exact (stale_upload_does_not_leak working (POST_transcribe sample_upload) _ deployed E).
Defined.

(** ** Runs of the server *)

Lemma app_commands env req w :
  ∃ new, commands (snd (app env req w)) = commands w ++ new
       ∧ Forall (λ argv, argv = whisper_argv env "temp_audio.wav") new
       ∧ (length new ≤ if is_POST req then 1 else 0)%nat.
Proof.
  destruct req as [file| | |];
    [| exists []; rewrite app_nil_r; split; [done | split; [constructor | simpl; lia]] ..].
  rewrite app_transcribe. cbn [snd]. rewrite transcribe_audio_commands.
  eexists. split; [reflexivity |].
  destruct (disk env "temp_audio.wav" file); simpl; repeat constructor.
Qed.

Lemma serve_cons env req reqs w :
  serve env (req :: reqs) w =
    (fst (app env req w) :: fst (serve env reqs (snd (app env req w))),
     snd (serve env reqs (snd (app env req w)))).
Proof.
  simpl. destruct (app env req w) as [r w1]. cbn [fst snd].
  by destruct (serve env reqs w1).
Qed.

(** X9: over any sequence of requests, the server changes no file other
    than temp_audio.wav. *)
Theorem serve_keeps_other_files env reqs w :
  delete "temp_audio.wav" (files (snd (serve env reqs w))) = delete "temp_audio.wav" (files w).
Proof.
  revert w. induction reqs as [|req reqs IH]; intros w; [reflexivity |].
  rewrite serve_cons. cbn [snd]. rewrite IH. apply app_other_files.
Qed.

(** X10: over any sequence of requests, every command the server runs is
    the recogniser's command line on temp_audio.wav, and it runs at most
    one per POST request. *)
Theorem serve_runs_only_the_recogniser env reqs w :
  ∃ new, commands (snd (serve env reqs w)) = commands w ++ new
       ∧ Forall (λ argv, argv = whisper_argv env "temp_audio.wav") new
       ∧ (length new ≤ length (List.filter is_POST reqs))%nat.
Proof.
  revert w. induction reqs as [|req reqs IH]; intros w.
  - exists []. by rewrite app_nil_r.
  - rewrite serve_cons. cbn [snd].
    destruct (app_commands env req w) as (new1 & E1 & F1 & L1).
    destruct (IH (snd (app env req w))) as (new2 & E2 & F2 & L2).
    exists (new1 ++ new2). rewrite E2, E1, app_assoc. split; [reflexivity |].
    split; [by apply Forall_app |].
    rewrite length_app. cbn [List.filter]. destruct (is_POST req); simpl in *; lia.
Qed.

(** X11: every request for one of the three routes gets exactly one
    answer: a GET is answered 200, a POST /transcribe that carries the file
    200 or 500, and one without the file 422. *)
Theorem serve_answers_each_request env reqs w :
  length (fst (serve env reqs w)) = length reqs
  ∧ Forall2 (λ req r,
               match req with
               | POST_transcribe _ => status r = 200%Z ∨ status r = 500%Z
               | POST_transcribe_without_file => status r = 422%Z
               | GET_health | GET_root => status r = 200%Z
               end)
      reqs (fst (serve env reqs w)).
Proof.
  revert w. induction reqs as [|req reqs IH]; intros w; [by split; [| constructor] |].
  rewrite serve_cons. cbn [fst length]. destruct (IH (snd (app env req w))) as [IHl IHf].
  split; [by rewrite IHl |]. constructor; [| exact IHf].
  destruct req as [file| | |]; [apply transcribe_status | reflexivity ..].
Qed.

(** X12: a sequence of GET / and GET /health requests is answered 200
    throughout and leaves files, console and command log as they were. *)
Theorem serve_reads_leave_no_trace env reqs w :
  Forall (λ req, is_POST req = false) reqs →
  snd (serve env reqs w) = w
  ∧ Forall (λ r, status r = 200%Z) (fst (serve env reqs w)).
Proof.
  induction 1 as [|req reqs Hreq _ IH]; [by split; [| constructor] |].
  rewrite serve_cons. cbn [fst snd].
  assert (app env req w = (fst (app env req w), w) ∧ status (fst (app env req w)) = 200%Z)
    as [E Hs] by (by destruct req).
  rewrite E. cbn [fst snd]. destruct IH as [IHw IHf]. split; [exact IHw |].
  constructor; [exact Hs | exact IHf].
Qed.

Lemma serve_reads_leave_no_trace_witness :
  Forall (λ req, is_POST req = false) [GET_health; GET_root; GET_health]
  ∧ snd (serve absent [GET_health; GET_root; GET_health] deployed) = deployed
  ∧ Forall (λ r, status r = 200%Z) (fst (serve absent [GET_health; GET_root; GET_health] deployed)).
Proof.
  assert (Hreqs : Forall (λ req, is_POST req = false) [GET_health; GET_root; GET_health])
    by (repeat constructor).
  split; [exact Hreqs |].
  exact (serve_reads_leave_no_trace absent [GET_health; GET_root; GET_health] deployed Hreqs).
Defined.

End RelayEdges.

(** ** The icon generator on every path *)

Module IconsEdges.
Import Icons IconsProps.

Section WithImaging.
Context `{Imaging}.

Lemma Image_open_world path (w : World) : snd (Image_open path w) = w.
Proof.
  unfold Image_open.
  destruct (files w !! path) as [[? ?|entries|?]|]; [| destruct (largest entries) | |]; done.
Qed.



Lemma generate_icons_raise source out (w : World) e :
  fst (Image_open source w) = Raise e → generate_icons source out w = (Raise e, w).
Proof.
  intros E. unfold generate_icons, generate_icons_on, bind.
  rewrite (surjective_pairing (Image_open source w)), E. by rewrite Image_open_world.
Qed.







Lemma Image_open_errors path (w : World) e :
  fst (Image_open path w) = Raise e →
  (files w !! path = None ∧ e = FileNotFoundError path)
  ∨ (is_Some (files w !! path) ∧ e = UnidentifiedImageError path).
Proof.
  unfold Image_open.
  destruct (files w !! path) as [[? ?|entries|?]|]; [| destruct (largest entries) | |];
    cbn [fst]; intros [= <-] || intros [=]; auto.
Qed.

(** X14: generate_icons called on a source that Image.open cannot read
    raises that error with nothing written and nothing printed; the error
    is the missing-file error when the path is absent and the
    unidentified-image error when the file is there but is no image. *)
Theorem generate_icons_unreadable_source source out (w : World) e :
  fst (Image_open source w) = Raise e →
  generate_icons source out w = (Raise e, w)
  ∧ ((files w !! source = None ∧ e = FileNotFoundError source)
     ∨ (is_Some (files w !! source) ∧ e = UnidentifiedImageError source)).
Proof.
  intros E. split; [by apply generate_icons_raise | by apply Image_open_errors].
Qed.



Lemma main_on_decoded damaged locked (w : World) src :
  Image_open "src-tauri/icons/icon.png" w = (Ok src, w) →
  damaged "src-tauri/icons/icon.png" = None →
  fst (main_on damaged locked w)
    = match fst (save_until locked (outputs "src-tauri/icons" src) (files w)) with
      | None => 0%Z
      | Some _ => 1%Z
      end
  ∧ files (snd (main_on damaged locked w))
    = snd (save_until locked (outputs "src-tauri/icons" src) (files w)).
Proof.
  intros Ho Hl. unfold main_on.
  assert (os_path_exists "src-tauri/icons/icon.png" w = true) as ->.
  { unfold os_path_exists. apply bool_decide_eq_true_2.
    unfold Image_open in Ho. destruct (files w !! _); [by eexists | done]. }
  cbn [negb]. set (w1 := snd (_ w)).
  assert (Ho1 : Image_open "src-tauri/icons/icon.png" w1 = (Ok src, w1))
    by (by apply (Image_open_same_files _ w)).
  destruct (generate_icons_on_saves damaged locked "src-tauri/icons/icon.png"
              "src-tauri/icons" w1 src Ho1 Hl) as [Er Ef].
  change (files w1) with (files w) in Er, Ef.
  unfold try_except, bind.
  destruct (generate_icons_on damaged locked "src-tauri/icons/icon.png" "src-tauri/icons" w1)
    as [r w2]. cbn [fst snd] in Er, Ef. subst r. rewrite <- Ef.
  by destruct (fst (save_until locked _ (files w))).
Qed.

(** On a tree whose source loads and that refuses none of the four saves
    the program does what [main] does; what is proved of [main] holds on
    every such tree. *)
Lemma main_on_writable damaged locked (w : World) :
  damaged "src-tauri/icons/icon.png" = None →
  (∀ p, p ∈ png_paths "src-tauri/icons" ++ [ico_path "src-tauri/icons"] → locked p = None) →
  main_on damaged locked w = main w.
Proof.
  intros Hl Hw. unfold main, main_on.
  destruct (os_path_exists _ w); cbn [negb]; [| reflexivity].
  unfold try_except, bind.
  rewrite (generate_icons_on_writable damaged locked _ _ _ Hl Hw). reflexivity.
Qed.



(** X16: when the source opens and loads and a save is refused, the
    program exits with status 1; the files saved before the refused one
    remain as saved and the later ones are not written. *)
Theorem main_failure_keeps_earlier_saves damaged locked (w : World) src saved path f rest e :
  Image_open "src-tauri/icons/icon.png" w = (Ok src, w) →
  damaged "src-tauri/icons/icon.png" = None →
  outputs "src-tauri/icons" src = saved ++ (path, f) :: rest →
  (∀ q, q ∈ saved.*1 → locked q = None) →
  locked path = Some e →
  fst (main_on damaged locked w) = 1%Z
  ∧ files (snd (main_on damaged locked w)) = save_all saved (files w).
Proof.
  intros Ho Hl Eo Hw He. destruct (main_on_decoded damaged locked w src Ho Hl) as [-> ->].
  rewrite Eo, (save_until_refused locked saved rest path f e (files w) Hw He). by split.
Qed.



(** X19: every image generate_icons writes, the three PNG files and each
    entry of icon.ico, is in RGBA mode, whatever the mode of the source. *)
Theorem outputs_are_RGBA source out (w : World) src p :
  Image_open source w = (Ok src, w) →
  p ∈ ico_path out :: png_paths out →
  match files (snd (generate_icons source out w)) !! p with
  | Some (RasterFile _ im) => im_mode im = "RGBA"
  | Some (IconFile entries) => entries ≠ [] ∧ Forall (λ e, im_mode e = "RGBA") entries
  | _ => False
  end.
Proof.
  intros Ho Hp. rewrite (generate_icons_result _ _ _ _ Ho). cbn [snd files].
  unfold ico_path, png_paths, sizes in Hp. cbn [fmap list_fmap] in Hp.
  rewrite !elem_of_cons in Hp.
  destruct Hp as [-> | [-> | [-> | [-> | Hp]]]]; [| | | | by apply elem_of_nil in Hp].
  - rewrite lookup_insert_eq. split; [done |]. repeat constructor. apply ensure_RGBA_mode.
  - rewrite !lookup_insert_ne by path_ne. rewrite lookup_insert_eq. apply ensure_RGBA_mode.
  - rewrite !lookup_insert_ne by path_ne. rewrite lookup_insert_eq. apply ensure_RGBA_mode.
  - rewrite !lookup_insert_ne by path_ne. rewrite lookup_insert_eq. apply ensure_RGBA_mode.
Qed.

(** X20: for every source that opens and loads, on a tree that refuses
    none of the four saves, icon.ico is a file of its own beside the PNG files and
    holds one entry, the 16 by 16 Lanczos resize of the RGBA-normalised
    source. *)
Theorem ico_entry_for_every_source damaged locked source out (w : World) src :
  Image_open source w = (Ok src, w) →
  damaged source = None →
  (∀ p, p ∈ png_paths out ++ [ico_path out] → locked p = None) →
  ∃ entries,
    files (snd (generate_icons_on damaged locked source out w)) !! ico_path out
      = Some (IconFile entries)
    ∧ entries = [resize (16, 16) LANCZOS (ensure_RGBA src)]
    ∧ im_size <$> entries = [(16, 16)]
    ∧ ico_path out ∉ png_paths out.
Proof.
  intros Ho Hl Hw. rewrite (generate_icons_on_writable _ _ _ _ _ Hl Hw).
  rewrite (generate_icons_result _ _ _ _ Ho). cbn [snd files].
  eexists. split; [apply lookup_insert_eq |]. split; [reflexivity |]. split; [reflexivity |].
  unfold ico_path, png_paths, sizes. cbn [fmap list_fmap].
  rewrite !not_elem_of_cons. repeat split; try path_ne. apply not_elem_of_nil.
Qed.

(** X21: each PNG holds the Lanczos resampling of the source's own pixels
    when the source is already RGBA, and of the pixels converted to RGBA
    once otherwise. *)
Theorem conversion_only_when_needed source out (w : World) src width height filename :
  Image_open source w = (Ok src, w) →
  (width, height, filename) ∈ sizes →
  ∃ im, files (snd (generate_icons source out w)) !! path_join out filename
          = Some (RasterFile "PNG" im)
        ∧ im_px im = resample_px LANCZOS "RGBA" (im_size src) (width, height)
                       (if bool_decide (im_mode src = "RGBA") then im_px src
                        else convert_px (im_mode src) "RGBA" (im_px src)).
Proof.
  intros Ho Hin. rewrite (generate_icons_result _ _ _ _ Ho). cbn [snd files].
  assert (Epx : ∀ size, im_px (resize size LANCZOS (ensure_RGBA src))
                = resample_px LANCZOS "RGBA" (im_size src) size
                    (if bool_decide (im_mode src = "RGBA") then im_px src
                     else convert_px (im_mode src) "RGBA" (im_px src))).
  { intros size. unfold resize, ensure_RGBA. cbn [im_px].
    destruct (decide (im_mode src = "RGBA")) as [E|E].
    - rewrite (bool_decide_eq_false_2 (im_mode src ≠ "RGBA")) by tauto.
      rewrite (bool_decide_eq_true_2 _ E). by rewrite E.
    - rewrite (bool_decide_eq_true_2 _ E), (bool_decide_eq_false_2 _ E). reflexivity. }
  unfold sizes in Hin. rewrite !elem_of_cons in Hin.
  destruct Hin as [Hin | [Hin | [Hin | Hin]]]; [| | | by apply elem_of_nil in Hin];
    simplify_eq; eexists; (split; [| apply Epx]).
  - rewrite !lookup_insert_ne by path_ne. apply lookup_insert_eq.
  - rewrite !lookup_insert_ne by path_ne. apply lookup_insert_eq.
  - rewrite !lookup_insert_ne by path_ne. apply lookup_insert_eq.
Qed.

End WithImaging.

Lemma generate_icons_unreadable_source_witness :
  fst (Image_open "src-tauri/icons/icon.png" garbled)
    = Raise (UnidentifiedImageError "src-tauri/icons/icon.png")
  ∧ generate_icons "src-tauri/icons/icon.png" "src-tauri/icons" garbled
    = (Raise (UnidentifiedImageError "src-tauri/icons/icon.png"), garbled)
  ∧ ((files garbled !! "src-tauri/icons/icon.png" = None
      ∧ UnidentifiedImageError "src-tauri/icons/icon.png"
        = FileNotFoundError "src-tauri/icons/icon.png")
     ∨ (is_Some (files garbled !! "src-tauri/icons/icon.png")
        ∧ UnidentifiedImageError "src-tauri/icons/icon.png"
          = UnidentifiedImageError "src-tauri/icons/icon.png")).
Proof.
  split; [reflexivity |].
  exact (generate_icons_unreadable_source "src-tauri/icons/icon.png" "src-tauri/icons"
           garbled _ eq_refl).
Defined.


Lemma main_failure_keeps_earlier_saves_witness :
  Image_open "src-tauri/icons/icon.png" project = (Ok sample_source, project)
  ∧ outputs "src-tauri/icons" sample_source
    = [("src-tauri/icons/32x32.png",
        RasterFile "PNG" (resize (32, 32) LANCZOS (ensure_RGBA sample_source)))]
      ++ ("src-tauri/icons/128x128.png",
          RasterFile "PNG" (resize (128, 128) LANCZOS (ensure_RGBA sample_source)))
         :: [("src-tauri/icons/128x128@2x.png",
              RasterFile "PNG" (resize (256, 256) LANCZOS (ensure_RGBA sample_source)));
             ("src-tauri/icons/icon.ico",
              IconFile [resize (16, 16) LANCZOS (ensure_RGBA sample_source)])]
  ∧ intact "src-tauri/icons/icon.png" = None
  ∧ jammed "src-tauri/icons/32x32.png" = None
  ∧ jammed "src-tauri/icons/128x128.png"
    = Some (PermissionError "src-tauri/icons/128x128.png")
  ∧ fst (main_on intact jammed project) = 1%Z
  ∧ files (snd (main_on intact jammed project))
    = save_all [("src-tauri/icons/32x32.png",
                 RasterFile "PNG" (resize (32, 32) LANCZOS (ensure_RGBA sample_source)))]
        (files project).
Proof.
  assert (Hw : ∀ q, q ∈ [("src-tauri/icons/32x32.png",
                           RasterFile "PNG"
                             (resize (32, 32) LANCZOS (ensure_RGBA sample_source)))].*1 →
                    jammed q = None).
  { intros q Hq. cbn in Hq. apply list_elem_of_singleton in Hq. by subst q. }
  split; [reflexivity |]. split; [reflexivity |]. split; [reflexivity |].
  split; [reflexivity |]. split; [reflexivity |].
  exact (main_failure_keeps_earlier_saves intact jammed project sample_source
           [("src-tauri/icons/32x32.png",
             RasterFile "PNG" (resize (32, 32) LANCZOS (ensure_RGBA sample_source)))]
           "src-tauri/icons/128x128.png"
           (RasterFile "PNG" (resize (128, 128) LANCZOS (ensure_RGBA sample_source)))
           [("src-tauri/icons/128x128@2x.png",
             RasterFile "PNG" (resize (256, 256) LANCZOS (ensure_RGBA sample_source)));
            ("src-tauri/icons/icon.ico",
             IconFile [resize (16, 16) LANCZOS (ensure_RGBA sample_source)])]
           (PermissionError "src-tauri/icons/128x128.png")
           eq_refl eq_refl eq_refl Hw eq_refl).
Defined.


Lemma outputs_are_RGBA_witness :
  Image_open "src-tauri/icons/icon.png" project = (Ok sample_source, project)
  ∧ "src-tauri/icons/icon.ico" ∈ ico_path "src-tauri/icons" :: png_paths "src-tauri/icons"
  ∧ match files (snd (generate_icons "src-tauri/icons/icon.png" "src-tauri/icons" project))
            !! "src-tauri/icons/icon.ico" with
    | Some (RasterFile _ im) => im_mode im = "RGBA"
    | Some (IconFile entries) => entries ≠ [] ∧ Forall (λ e, im_mode e = "RGBA") entries
    | _ => False
    end.
Proof.
  assert (Hp : "src-tauri/icons/icon.ico"
               ∈ ico_path "src-tauri/icons" :: png_paths "src-tauri/icons")
    by apply list_elem_of_here.
  split; [reflexivity |]. split; [exact Hp |].
  exact (outputs_are_RGBA "src-tauri/icons/icon.png" "src-tauri/icons" project
           sample_source "src-tauri/icons/icon.ico" eq_refl Hp).
Defined.

Lemma ico_entry_for_every_source_witness :
  Image_open "src-tauri/icons/icon.png" rgba_project = (Ok rgba_source, rgba_project)
  ∧ intact "src-tauri/icons/icon.png" = None
  ∧ (∀ p, p ∈ png_paths "src-tauri/icons" ++ [ico_path "src-tauri/icons"] →
          writable p = None)
  ∧ ∃ entries,
      files (snd (generate_icons_on intact writable "src-tauri/icons/icon.png"
                    "src-tauri/icons" rgba_project))
        !! ico_path "src-tauri/icons" = Some (IconFile entries)
      ∧ entries = [resize (16, 16) LANCZOS (ensure_RGBA rgba_source)]
      ∧ im_size <$> entries = [(16, 16)]
      ∧ ico_path "src-tauri/icons" ∉ png_paths "src-tauri/icons".
Proof.
  assert (Hw : ∀ p, p ∈ png_paths "src-tauri/icons" ++ [ico_path "src-tauri/icons"] →
                    writable p = None) by (intros p _; reflexivity).
  split; [reflexivity |]. split; [reflexivity |]. split; [exact Hw |].
  exact (ico_entry_for_every_source intact writable "src-tauri/icons/icon.png"
           "src-tauri/icons" rgba_project rgba_source eq_refl eq_refl Hw).
Defined.

Lemma conversion_only_when_needed_witness :
  Image_open "src-tauri/icons/icon.png" project = (Ok sample_source, project)
  ∧ (32, 32, "32x32.png") ∈ sizes
  ∧ ∃ im, files (snd (generate_icons "src-tauri/icons/icon.png" "src-tauri/icons" project))
            !! path_join "src-tauri/icons" "32x32.png" = Some (RasterFile "PNG" im)
          ∧ im_px im = Resampled LANCZOS "RGBA" (512, 512) (32, 32)
                         (Converted "RGB" "RGBA" Source).
Proof.
  assert (Hin : (32, 32, "32x32.png") ∈ sizes) by apply list_elem_of_here.
  split; [reflexivity |]. split; [exact Hin |].
  exact (conversion_only_when_needed "src-tauri/icons/icon.png" "src-tauri/icons" project
           sample_source 32 32 "32x32.png" eq_refl Hin).
Defined.

End IconsEdges.
